(** * The dotnet command builder and executor, [dotnet.client.ts]

    A shallow embedding of [DotNetClient]: the assembly of argument lists,
    the extra-parameter tokenizer [EXTRA_PARAMS_REGEX], the environment
    substitution done before dispatch and the three ways of running the
    external process.

    Conventions.
    - A JavaScript string is the list of its UTF-16 code units ([list N]);
      [u] turns an ASCII literal into one.
    - An object used as an option bag is an association list in insertion
      order, because [Object.entries] and the spread visit keys in that order.
    - Effects ([console.log], [spawnSync], [spawn], mutation of an object the
      caller passed in, exceptions) live in the monad [M]: a state holding the
      object store and the trace of events, and an outcome that is a value or
      a thrown exception. *)

From Stdlib Require Import String Ascii NArith ZArith DecimalString Lia.
From stdpp Require Import gmap list.

Local Open Scope N_scope.

(** ** JavaScript strings *)

Abbreviation str := (list N).

Module JsString.

(** An ASCII literal as a sequence of code units. *)
Definition u (s : string) : str :=
  List.map N_of_ascii (list_ascii_of_string s).

Definition eqb (a b : str) : bool := bool_decide (a = b).

(** [a.join(sep)] *)
Fixpoint join (sep : str) (l : list str) : str :=
  match l with
  | [] => []
  | [a] => a
  | a :: l' => a ++ sep ++ join sep l'
  end.

(** Template-literal conversion of an integer. *)
Definition of_Z (z : Z) : str :=
  u (NilZero.string_of_int (Z.to_int z)).

(** *** Character classes of the regular expressions (no [u] flag) *)

(** [\s]: WhiteSpace and LineTerminator code units. *)
Definition is_space (c : N) : bool :=
  ((9 <=? c) && (c <=? 13)) || (c =? 32) || (c =? 160) || (c =? 5760)
  || ((8192 <=? c) && (c <=? 8202)) || (c =? 8232) || (c =? 8233)
  || (c =? 8239) || (c =? 8287) || (c =? 12288) || (c =? 65279).

(** [\S] *)
Definition is_nonspace (c : N) : bool := negb (is_space c).

(** [.] without the [s] flag: anything but a line terminator. *)
Definition is_dot (c : N) : bool :=
  negb ((c =? 10) || (c =? 13) || (c =? 8232) || (c =? 8233)).

(** [\w] *)
Definition is_word (c : N) : bool :=
  ((48 <=? c) && (c <=? 57)) || ((65 <=? c) && (c <=? 90)) || (c =? 95)
  || ((97 <=? c) && (c <=? 122)).

Definition is_digit (c : N) : bool := (48 <=? c) && (c <=? 57).

Definition dquote : N := 34.
Definition dollar : N := 36.

(** The longest prefix whose code units satisfy [p], and the rest: what a
    greedy [p*] consumes first. *)
Fixpoint span (p : N -> bool) (s : str) : str * str :=
  match s with
  | [] => ([], [])
  | c :: t =>
      if p c then let '(a, b) := span p t in (c :: a, b) else ([], s)
  end.

(** [s.trim()] *)
Definition trim (s : str) : str :=
  reverse (snd (span is_space (reverse (snd (span is_space s))))).

(** [s.split(sep)] for a one-unit separator. *)
Fixpoint split (sep : N) (s : str) : list str :=
  match s with
  | [] => [[]]
  | c :: t =>
      if c =? sep then [] :: split sep t
      else match split sep t with
           | [] => [[c]]
           | w :: ws => (c :: w) :: ws
           end
  end.

End JsString.
Import JsString.

(** ** The two regular expressions of the file *)

Module Regex.

(** *** [EXTRA_PARAMS_REGEX]: [\S*Q.+?Q|\S+] with the [g] flag, where [Q]
    stands for the double quote

    A match attempt at the head of [s] returns the matched text and the
    rest of the input. The engine backtracks, so the order of the attempts
    is the order of the pattern. *)

(** [.*?Q], what is left of [.+?Q] once [.+?] has its first unit: the lazy
    quantifier stops at the first closing quote it can reach over units
    that [.] accepts. *)
Fixpoint lazy_to_quote (s : str) : option (str * str) :=
  match s with
  | [] => None
  | c :: t =>
      if c =? dquote then Some ([c], t)
      else if is_dot c then
        match lazy_to_quote t with
        | Some (m, rest) => Some (c :: m, rest)
        | None => None
        end
      else None
  end.

(** [Q.+?Q] at the head of [s]. The first unit after the opening quote is
    taken by [.] whatever it is (a quote included). *)
Definition quoted_group (s : str) : option (str * str) :=
  match s with
  | q :: c :: t =>
      if (q =? dquote) && is_dot c then
        match lazy_to_quote t with
        | Some (m, rest) => Some (q :: c :: m, rest)
        | None => None
        end
      else None
  | _ => None
  end.

(** First alternative, [\S*Q.+?Q]. The greedy [\S*] first takes as many
    units as it can and gives them back one at a time: the attempt with one
    more unit consumed comes before the attempt that stops here. *)
Fixpoint alt_quoted (s : str) : option (str * str) :=
  match s with
  | [] => None
  | c :: t =>
      if is_nonspace c then
        match alt_quoted t with
        | Some (m, rest) => Some (c :: m, rest)
        | None => quoted_group s
        end
      else quoted_group s
  end.

(** Second alternative, [\S+]. *)
Definition alt_bare (s : str) : option (str * str) :=
  match span is_nonspace s with
  | ([], _) => None
  | (m, rest) => Some (m, rest)
  end.

Definition match_at (s : str) : option (str * str) :=
  match alt_quoted s with
  | Some r => Some r
  | None => alt_bare s
  end.

(** The global scan: at each index try a match; after a match resume at
    its end ([skip] counts the units of the match still to be passed over),
    otherwise move one unit forward. No match of this pattern is empty. *)
Fixpoint scan (skip : nat) (s : str) : list str :=
  match s with
  | [] => []
  | _ :: t =>
      match skip with
      | S n => scan n t
      | O =>
          match match_at s with
          | Some (m, _) => m :: scan (pred (length m)) t
          | None => scan O t
          end
      end
  end.

(** [extraParameters.match(EXTRA_PARAMS_REGEX)]: every match, or [null]
    ([None]) when there is none. *)
Definition match_EXTRA_PARAMS_REGEX (s : str) : option (list str) :=
  match scan O s with
  | [] => None
  | l => Some l
  end.

(** *** [param.replace(/\$(\w+)/, (_, varName) => process.env[varName] ?? '')]

    The pattern is not global: only the leftmost match is replaced. A
    dollar sign that no word character follows is not a match and the
    search goes on after it. *)
Fixpoint replace_env (env : gmap str str) (s : str) : str :=
  match s with
  | [] => []
  | c :: t =>
      if c =? dollar then
        match span is_word t with
        | ([], _) => c :: replace_env env t
        | (varName, rest) => default [] (env !! varName) ++ rest
        end
      else c :: replace_env env t
  end.

End Regex.

(** ** The version comparisons used by the client (npm package [semver])

    [semver] is an external library. The client calls [semver.lt],
    [semver.gte] and [semver.major] on the SDK version string, always in
    strict mode, and the right operand of a comparison is always one of the
    literals ['6.0.100'] and ['7.0.100'], which carry no prerelease tag. The
    model parses the strict grammar [v?M.m.p(-pre)?(+build)?] and compares
    with such a release. *)

Module Semver.

Record SemVer := {
  major : N;
  minor : N;
  patch : N;
  prerelease : list str
}.

(** The right operand of the client's comparisons: a version without
    prerelease. *)
Record Release := {
  rmajor : N;
  rminor : N;
  rpatch : N
}.

Definition MAX_LENGTH : nat := 256.
Definition MAX_SAFE_INTEGER : N := 9007199254740991.

Definition digits_value (s : str) : N :=
  fold_left (fun acc c => 10 * acc + (c - 48)) s 0.

(** [0|[1-9]\d*], within the safe integers. *)
Definition numeric_identifier (s : str) : option N :=
  match s with
  | [] => None
  | c :: t =>
      if forallb is_digit s && implb (c =? 48) (bool_decide (t = []))
      then let n := digits_value s in
           if n <=? MAX_SAFE_INTEGER then Some n else None
      else None
  end.

Definition is_letter_dash_number (c : N) : bool :=
  is_digit c || ((65 <=? c) && (c <=? 90)) || ((97 <=? c) && (c <=? 122))
  || (c =? 45).

(** [[0-9A-Za-z-]+] *)
Definition build_identifier (s : str) : bool :=
  negb (bool_decide (s = [])) && forallb is_letter_dash_number s.

(** A numeric identifier without leading zero, or [\d*[a-zA-Z-][a-zA-Z0-9-]*]. *)
Definition prerelease_identifier (s : str) : bool :=
  build_identifier s
  && (negb (forallb is_digit s)
      || match s with c :: _ :: _ => negb (c =? 48) | _ => true end).

(** What follows the separator [sep], when the text starts with it. *)
Definition tagged (sep : N) (ok : str -> bool) (s : str)
  : option (list str) :=
  match s with
  | [] => Some []
  | c :: t =>
      let ids := split 46 t in
      if (c =? sep) && forallb ok ids then Some ids else None
  end.

(** [new SemVer(version)]: [None] stands for the [TypeError] the
    constructor throws on an invalid version. *)
Definition parse (version : str) : option SemVer :=
  if (MAX_LENGTH <? length version)%nat then None else
  let s := trim version in
  let s := match s with 118 :: t => t | _ => s end in
  let '(core, build) := span (fun c => negb (c =? 43)) s in
  let '(main, pre) := span (fun c => negb (c =? 45)) core in
  match List.map numeric_identifier (split 46 main),
        tagged 45 prerelease_identifier pre,
        tagged 43 build_identifier build with
  | [Some M; Some m; Some p], Some ids, Some _ =>
      Some {| major := M; minor := m; patch := p; prerelease := ids |}
  | _, _, _ => None
  end.

(** [compareMain] *)
Definition compareMain (a : SemVer) (b : Release) : comparison :=
  match major a ?= rmajor b with
  | Eq => match minor a ?= rminor b with
          | Eq => patch a ?= rpatch b
          | o => o
          end
  | o => o
  end.

(** [comparePre] when the other version has no prerelease: a prerelease
    sorts before its release. *)
Definition comparePre (a : SemVer) : comparison :=
  match prerelease a with
  | [] => Eq
  | _ :: _ => Lt
  end.

(** [compare]: [compareMain(other) || comparePre(other)] *)
Definition compare (a : SemVer) (b : Release) : comparison :=
  match compareMain a b with
  | Eq => comparePre a
  | o => o
  end.

Definition lt (a : SemVer) (b : Release) : bool :=
  match compare a b with Lt => true | _ => false end.

Definition gte (a : SemVer) (b : Release) : bool :=
  match compare a b with Lt => false | _ => true end.

(** The literals ['6.0.100'] and ['7.0.100']. *)
Definition v6_0_100 : Release := {| rmajor := 6; rminor := 0; rpatch := 100 |}.
Definition v7_0_100 : Release := {| rmajor := 7; rminor := 0; rpatch := 100 |}.

End Semver.

(** ** Option objects *)

Module Obj.

Inductive Value :=
| VUndefined
| VBool (b : bool)
| VString (s : str)
| VNumber (n : Z).

(** [v !== undefined] *)
Definition defined (v : Value) : bool :=
  match v with VUndefined => false | _ => true end.

(** [v !== false] *)
Definition not_false (v : Value) : bool :=
  match v with VBool false => false | _ => true end.

(** An object: its own properties in insertion order, keys unique. *)
Abbreviation t := (list (str * Value)).

(** [o.k]; a missing property reads as [undefined]. *)
Fixpoint get (k : str) (o : t) : Value :=
  match o with
  | [] => VUndefined
  | (k', v) :: o' => if eqb k' k then v else get k o'
  end.

(** [k in o] for own properties. *)
Definition has (k : str) (o : t) : bool :=
  existsb (fun kv => eqb (fst kv) k) o.

(** [delete o.k] *)
Definition delete (k : str) (o : t) : t :=
  List.filter (fun kv => negb (eqb (fst kv) k)) o.

(** [o.k = v]: an existing property keeps its place, a new one goes last. *)
Fixpoint set (k : str) (v : Value) (o : t) : t :=
  match o with
  | [] => [(k, v)]
  | (k', v') :: o' =>
      if eqb k' k then (k, v) :: o' else (k', v') :: set k v o'
  end.

Abbreviation KeyMap := (list (str * str)).

End Obj.

(** ** Collaborators that are not part of this file *)

(** [@nx-dotnet/utils], [../models] and the output parser: the client only
    calls them, so they are taken as given. *)
Class Utils := {
  getSpawnParameterArray : Obj.t -> list str;
  swapKeysUsingMap : Obj.t -> Obj.KeyMap -> Obj.t;
  buildKeyMap : Obj.KeyMap;
  runKeyMap : Obj.KeyMap;
  testKeyMap : Obj.KeyMap;
  publishKeyMap : Obj.KeyMap;
  formatKeyMap : Obj.KeyMap;
  DotnetTemplate : Type;
  parseDotnetNewListOutput : str -> list DotnetTemplate
}.

(** ** Processes, the console and exceptions *)

Inductive Stdio := inherit | pipe.

(** What the client does to the outside world, in order. *)
Inductive Event :=
| ConsoleLog (line : str)
| SpawnSync (file : str) (args : list str) (cwd : str) (stdio : Stdio)
| Spawn (file : str) (args : list str) (cwd : str) (stdio : Stdio).

(** The object [spawnSync] returns; [status] is [null] ([None]) when the
    process did not exit by itself. The streams are given as text. *)
Record SpawnSyncReturns := {
  status : option Z;
  stdout : str;
  stderr : str
}.

(** The handle [spawn] returns. *)
Record ChildProcess := {
  spawnfile : str;
  spawnargs : list str
}.

(** The Node.js process the client runs in. The outcome of a child process
    is not decided by the client: it may depend on everything that happened
    so far, the dispatch that started it included. *)
Class Runtime := {
  process_env : gmap str str;
  process_cwd : str;
  child_outcome : list Event -> SpawnSyncReturns
}.

Inductive TypeErrorCause :=
| InvalidVersion
| SpreadOfNull
| PropertyOfUndefined.

Inductive Exn :=
| Error (message : str)
| TypeError (cause : TypeErrorCause).

Inductive Outcome (A : Type) :=
| Returned (a : A)
| Thrown (e : Exn).
Arguments Returned {A} a.
Arguments Thrown {A} e.

Abbreviation loc := nat.

Record State := {
  heap : gmap loc Obj.t;
  trace : list Event
}.

(** A computation of the client: it may change the state and ends with a
    value or with an exception; the state reached is kept in both cases. *)
Definition M (A : Type) : Type := State -> Outcome A * State.

Definition ret {A} (a : A) : M A := fun st => (Returned a, st).

Definition bind {A B} (m : M A) (k : A -> M B) : M B :=
  fun st =>
    match m st with
    | (Returned a, st') => k a st'
    | (Thrown e, st') => (Thrown e, st')
    end.

Definition throw {A} (e : Exn) : M A := fun st => (Thrown e, st).

Notation "x <- c1 ;; c2" := (bind c1 (fun x => c2))
  (at level 100, c1 at next level, right associativity).
Notation "c1 ;; c2" := (bind c1 (fun _ => c2))
  (at level 100, right associativity).

Definition emit (e : Event) : M unit :=
  fun st => (Returned tt, {| heap := heap st; trace := trace st ++ [e] |}).

Definition history : M (list Event) :=
  fun st => (Returned (trace st), st).

(** The object a reference points to. *)
Definition deref (l : loc) : M Obj.t :=
  fun st => (Returned (default [] (heap st !! l)), st).

Definition update (l : loc) (f : Obj.t -> Obj.t) : M unit :=
  fun st => (Returned tt, {| heap := alter f l (heap st); trace := trace st |}).

(** [parameters?.k] *)
Definition optional_prop (parameters : option loc) (k : str) : M Obj.Value :=
  match parameters with
  | None => ret Obj.VUndefined
  | Some l => o <- deref l ;; ret (Obj.get k o)
  end.

(** [parameters.k] *)
Definition prop (parameters : option loc) (k : str) : M Obj.Value :=
  match parameters with
  | None => throw (TypeError PropertyOfUndefined)
  | Some l => o <- deref l ;; ret (Obj.get k o)
  end.

(** [delete parameters.k]: the object itself is changed, for every holder of
    the reference. *)
Definition delete_prop (parameters : option loc) (k : str) : M unit :=
  match parameters with
  | None => throw (TypeError PropertyOfUndefined)
  | Some l => update l (Obj.delete k)
  end.

(** The object literal with only a spread of [parameters] in it: a fresh
    object with the same properties; spreading [undefined] adds nothing. *)
Definition spread (parameters : option loc) : M Obj.t :=
  match parameters with
  | None => ret []
  | Some l => deref l
  end.

(** ** The client *)

Record LoadedCLI := {
  command : str;
  info_version : str
}.

Record DotNetClient := {
  cliCommand : LoadedCLI;
  cwd : option str
}.

(** A string used as a condition: [undefined] and the empty string are
    falsy. *)
Definition truthy (s : option str) : bool :=
  match s with
  | Some (_ :: _) => true
  | _ => false
  end.

Definition the (s : option str) : str := default [] s.

Section Client.

Context {utils : Utils} {runtime : Runtime}.

Definition getSdkVersion (c : DotNetClient) : str :=
  info_version (cliCommand c).

(** [semver.major], [semver.lt] and [semver.gte] start by parsing, and
    throw on a version that does not parse. *)
Definition semver_parse (version : str) : M Semver.SemVer :=
  match Semver.parse version with
  | Some v => ret v
  | None => throw (TypeError InvalidVersion)
  end.

(** [this.cwd || process.cwd()] *)
Definition working_directory (c : DotNetClient) : str :=
  if truthy (cwd c) then the (cwd c) else process_cwd.

(** The command as it is logged: the executable, then every parameter in
    double quotes. *)
Definition command_line (c : DotNetClient) (params : list str) : str :=
  command (cliCommand c) ++ [32; dquote]
    ++ join [dquote; 32; dquote] params ++ [dquote].

Definition log_line (c : DotNetClient) (params : list str) : str :=
  u "Executing Command: " ++ command_line c params.

(** [spawnSync(file, args, {cwd, stdio})]: the call returns when the child
    has ended. *)
Definition spawnSync (file : str) (args : list str) (dir : str)
    (io : Stdio) : M SpawnSyncReturns :=
  emit (SpawnSync file args dir io) ;;
  h <- history ;;
  ret (child_outcome h).

(** [spawn(file, args, {stdio, cwd})]: the call returns at once. *)
Definition spawn (file : str) (args : list str) (dir : str)
    (io : Stdio) : M ChildProcess :=
  emit (Spawn file args dir io) ;;
  ret {| spawnfile := file; spawnargs := file :: args |}.

Definition exited_normally (res : SpawnSyncReturns) : bool :=
  bool_decide (status res = Some 0%Z).

(** A status inside a template literal. *)
Definition show_status (s : option Z) : str :=
  match s with
  | Some z => of_Z z
  | None => u "null"
  end.

Definition logAndExecute (c : DotNetClient) (params : list str) : M unit :=
  let params := List.map (Regex.replace_env process_env) params in
  let cmd := command_line c params in
  emit (ConsoleLog (u "Executing Command: " ++ cmd)) ;;
  res <- spawnSync (command (cliCommand c)) params
           (working_directory c) inherit ;;
  if negb (exited_normally res) then
    throw (Error (u "dotnet execution returned status code "
                    ++ show_status (status res)))
  else ret tt.

Definition spawnAndGetOutput (c : DotNetClient) (params : list str)
    : M str :=
  let params := List.map (Regex.replace_env process_env) params in
  res <- spawnSync (command (cliCommand c)) params
           (working_directory c) pipe ;;
  if negb (exited_normally res) then
    throw (Error (u "dotnet execution returned status code "
                    ++ show_status (status res) ++ [32; 10; 32]
                    ++ stderr res))
  else ret (stdout res).

Definition logAndSpawn (c : DotNetClient) (params : list str)
    : M ChildProcess :=
  emit (ConsoleLog (u "Executing Command: " ++ command_line c params)) ;;
  spawn (command (cliCommand c)) params (working_directory c) inherit.

(** [if (parameters) { parameters = swapKeysUsingMap(parameters, keyMap);
    params.push(...getSpawnParameterArray(parameters)) }] for an object
    passed by value. *)
Definition push_options (params : list str) (parameters : option Obj.t)
    (keyMap : Obj.KeyMap) : list str :=
  match parameters with
  | Some o => params ++ getSpawnParameterArray (swapKeysUsingMap o keyMap)
  | None => params
  end.

(** [if (extraParameters) { const matches =
    extraParameters.match(EXTRA_PARAMS_REGEX); params.push(...matches) }]:
    spreading [null] throws. *)
Definition push_extra (params : list str) (extraParameters : option str)
    : M (list str) :=
  if truthy extraParameters then
    match Regex.match_EXTRA_PARAMS_REGEX (the extraParameters) with
    | Some matches => ret (params ++ matches)
    | None => throw (TypeError SpreadOfNull)
    end
  else ret params.

Record ListOptions := {
  search : option str;
  language : option str
}.

(** The argument list [listInstalledTemplates] builds, for a version that
    parsed. *)
Definition listInstalledTemplates_params (version : Semver.SemVer)
    (opts : option ListOptions) : list str :=
  let opts_search := opts ≫= search in
  let opts_language := opts ≫= language in
  let params := [u "new"] in
  let params :=
    if Semver.lt version Semver.v6_0_100 && truthy opts_search
    then params ++ [the opts_search] else params in
  let params :=
    if Semver.gte version Semver.v7_0_100
    then params ++ [u "list"] else params ++ [u "--list"] in
  let params :=
    if Semver.gte version Semver.v6_0_100 && truthy opts_search
    then params ++ [the opts_search] else params in
  let params :=
    if truthy opts_language
    then params ++ [u "--language"; the opts_language] else params in
  params.

Definition listInstalledTemplates (c : DotNetClient)
    (opts : option ListOptions) : M (list DotnetTemplate) :=
  version <- semver_parse (getSdkVersion c) ;;
  output <- spawnAndGetOutput c (listInstalledTemplates_params version opts) ;;
  ret (parseDotnetNewListOutput output).

Definition build_params (project : str) (parameters : option Obj.t)
    (extraParameters : option str) : M (list str) :=
  let params := [u "build"; project] in
  let params := push_options params parameters buildKeyMap in
  push_extra params extraParameters.

Definition build (c : DotNetClient) (project : str)
    (parameters : option Obj.t) (extraParameters : option str) : M unit :=
  params <- build_params project parameters extraParameters ;;
  logAndExecute c params.

(** [watch] defaults to [false] in [run]; in [test] a missing [watch] is
    falsy. *)
Definition flag (watch : option bool) : bool := default false watch.

Definition run_params (project : str) (watch : option bool)
    (parameters : option Obj.t) : list str :=
  let params :=
    if flag watch
    then [u "watch"; u "--project"; project; u "run"]
    else [u "run"; u "--project"; project] in
  push_options params parameters runKeyMap.

Definition run (c : DotNetClient) (project : str) (watch : option bool)
    (parameters : option Obj.t) : M ChildProcess :=
  logAndSpawn c (run_params project watch parameters).

Definition test_params (project : str) (watch : option bool)
    (parameters : option Obj.t) (extraParameters : option str)
    : M (list str) :=
  let params :=
    if flag watch
    then [u "watch"; u "--project"; project; u "test"]
    else [u "test"; project] in
  let params := push_options params parameters testKeyMap in
  push_extra params extraParameters.

Definition test (c : DotNetClient) (project : str) (watch : option bool)
    (parameters : option Obj.t) (extraParameters : option str)
    : M (option ChildProcess) :=
  params <- test_params project watch parameters extraParameters ;;
  if negb (flag watch) then
    logAndExecute c params ;; ret None
  else
    child <- logAndSpawn c params ;; ret (Some child).

Definition publish_params (project : str) (parameters : option Obj.t)
    (publishProfile extraParameters : option str) : M (list str) :=
  let params := [u "publish"; [dquote] ++ project ++ [dquote]] in
  let params := push_options params parameters publishKeyMap in
  let params :=
    if truthy publishProfile
    then params ++ [u "-p:PublishProfile=" ++ the publishProfile]
    else params in
  push_extra params extraParameters.

Definition publish (c : DotNetClient) (project : str)
    (parameters : option Obj.t) (publishProfile extraParameters : option str)
    : M unit :=
  params <- publish_params project parameters publishProfile
              extraParameters ;;
  logAndExecute c params.

Definition runTool_params (tool : str)
    (positionalParameters : option (list str)) (parameters : option Obj.t)
    (extraParameters : option str) : M (list str) :=
  let params := [u "tool"; u "run"; tool] in
  let params := params ++ default [] positionalParameters in
  let params :=
    match parameters with
    | Some o => params ++ getSpawnParameterArray o
    | None => params
    end in
  push_extra params extraParameters.

Definition runTool (c : DotNetClient) (tool : str)
    (positionalParameters : option (list str)) (parameters : option Obj.t)
    (extraParameters : option str) : M unit :=
  params <- runTool_params tool positionalParameters parameters
              extraParameters ;;
  logAndExecute c params.

Definition fixWhitespace : str := u "fixWhitespace".
Definition fixStyle : str := u "fixStyle".
Definition fixAnalyzers : str := u "fixAnalyzers".
Definition severity : str := u "severity".

(** [typeof v === 'string'] guards [subcommandParameterObject.severity = v] *)
Definition set_severity (v : Obj.Value) (o : Obj.t) : Obj.t :=
  match v with
  | Obj.VString _ => Obj.set severity v o
  | _ => o
  end.

(** [parameters] is a reference: the caller keeps the object. *)
Definition format (c : DotNetClient) (project : str)
    (parameters : option loc) (forceToolUsage : option bool) : M unit :=
  let params :=
    if flag forceToolUsage
    then [u "tool"; u "run"; u "dotnet-format"; u "--"]
    else [u "format"] in
  version <- semver_parse (getSdkVersion c) ;;
  fw <- optional_prop parameters fixWhitespace ;;
  fs <- optional_prop parameters fixStyle ;;
  fa <- optional_prop parameters fixAnalyzers ;;
  if (6 <=? Semver.major version)
     && (Obj.defined fw || Obj.defined fs || Obj.defined fa)
  then
    whitespace <- prop parameters fixWhitespace ;;
    style <- prop parameters fixStyle ;;
    analyzers <- prop parameters fixAnalyzers ;;
    delete_prop parameters fixWhitespace ;;
    delete_prop parameters fixStyle ;;
    delete_prop parameters fixAnalyzers ;;
    (if Obj.not_false whitespace then
       subcommandParameterObject <- spread parameters ;;
       let subcommandParameterObject :=
         Obj.delete fixWhitespace subcommandParameterObject in
       logAndExecute c
         (params ++ [u "whitespace"; project]
            ++ getSpawnParameterArray subcommandParameterObject)
     else ret tt) ;;
    (if Obj.not_false style then
       subcommandParameterObject <- spread parameters ;;
       let subcommandParameterObject :=
         set_severity style subcommandParameterObject in
       let subcommandParameterObject :=
         Obj.delete fixStyle subcommandParameterObject in
       logAndExecute c
         (params ++ [u "style"; project]
            ++ getSpawnParameterArray subcommandParameterObject)
     else ret tt) ;;
    (if Obj.not_false analyzers then
       subcommandParameterObject <- spread parameters ;;
       let subcommandParameterObject :=
         set_severity analyzers subcommandParameterObject in
       let subcommandParameterObject :=
         Obj.delete fixAnalyzers subcommandParameterObject in
       logAndExecute c
         (params ++ [u "analyzers"; project]
            ++ getSpawnParameterArray subcommandParameterObject)
     else ret tt)
  else
    let params := params ++ [project] in
    params <-
      match parameters with
      | Some l =>
          o <- deref l ;;
          ret (params
                 ++ getSpawnParameterArray (swapKeysUsingMap o formatKeyMap))
      | None => ret params
      end ;;
    logAndExecute c params.

End Client.

(** ** Vocabulary of the statements *)

Definition outcome_map {A B} (f : A -> B) (o : Outcome A) : Outcome B :=
  match o with
  | Returned a => Returned (f a)
  | Thrown e => Thrown e
  end.

(** The state once [events] have happened. *)
Definition after (st : State) (events : list Event) : State :=
  {| heap := heap st; trace := trace st ++ events |}.

(** The options of an object passed by value, renamed and flattened. *)
Definition mapped_options {utils : Utils} (parameters : option Obj.t)
    (keyMap : Obj.KeyMap) : list str :=
  match parameters with
  | Some o => getSpawnParameterArray (swapKeysUsingMap o keyMap)
  | None => []
  end.

(** The object the three [delete]s of [format] leave behind. *)
Definition without_fix_flags (o : Obj.t) : Obj.t :=
  Obj.delete fixAnalyzers (Obj.delete fixStyle (Obj.delete fixWhitespace o)).

(** The state in which the sub-invocations of [format] start: the object at
    [l], which was [o], has lost the three flags. *)
Definition flags_deleted (st : State) (l : loc) (o : Obj.t) : State :=
  {| heap := <[l := without_fix_flags o]> (heap st); trace := trace st |}.

(** The first tokens of a [format] command. *)
Definition format_base (forceToolUsage : option bool) : list str :=
  if flag forceToolUsage
  then [u "tool"; u "run"; u "dotnet-format"; u "--"]
  else [u "format"].

(** The arguments of one sub-invocation of [format], as dispatched. *)
Definition format_sub {utils : Utils} {runtime : Runtime}
    (forceToolUsage : option bool) (name project : str) (o : Obj.t)
    : list str :=
  List.map (Regex.replace_env process_env)
    (format_base forceToolUsage ++ [name; project]
       ++ getSpawnParameterArray o).

(** The sub-invocations [format] goes through on the split path, as
    dispatched, for a parameter object that was [o] at the call. *)
Definition format_plan {utils : Utils} {runtime : Runtime}
    (forceToolUsage : option bool) (project : str) (o : Obj.t)
    : list (list str) :=
  let shared := without_fix_flags o in
  (if Obj.not_false (Obj.get fixWhitespace o)
   then [format_sub forceToolUsage (u "whitespace") project
           (Obj.delete fixWhitespace shared)]
   else [])
  ++ (if Obj.not_false (Obj.get fixStyle o)
      then [format_sub forceToolUsage (u "style") project
              (Obj.delete fixStyle
                 (set_severity (Obj.get fixStyle o) shared))]
      else [])
  ++ (if Obj.not_false (Obj.get fixAnalyzers o)
      then [format_sub forceToolUsage (u "analyzers") project
              (Obj.delete fixAnalyzers
                 (set_severity (Obj.get fixAnalyzers o) shared))]
      else []).

(** [format] takes the split path: SDK major version at least 6 and one of
    the three flags of [o] defined. *)
Definition split_path (version : Semver.SemVer) (o : Obj.t) : Prop :=
  6 <= Semver.major version
  /\ (Obj.defined (Obj.get fixWhitespace o)
      || Obj.defined (Obj.get fixStyle o)
      || Obj.defined (Obj.get fixAnalyzers o)) = true.

(** A token holds a dollar sign followed by a word character somewhere. *)
Fixpoint has_variable (s : str) : bool :=
  match s with
  | [] => false
  | c :: t =>
      ((c =? dollar) && match t with d :: _ => is_word d | [] => false end)
      || has_variable t
  end.

(** The tokens an extra-parameter string contributes, or the exception its
    tokenization ends with. *)
Definition extra_tokens (extraParameters : option str)
    : Outcome (list str) :=
  if truthy extraParameters then
    match Regex.match_EXTRA_PARAMS_REGEX (the extraParameters) with
    | Some matches => Returned matches
    | None => Thrown (TypeError SpreadOfNull)
    end
  else Returned [].

(** The shape of a match of the first alternative: a run [p] without white
    space, then a quote, one unit [c], a stretch [q] without quote, and the
    closing quote. *)
Definition quoted_shape (m : str) : Prop :=
  exists p c q,
    m = p ++ [dquote] ++ (c :: q) ++ [dquote]
    /\ forallb is_nonspace p = true
    /\ forallb is_dot (c :: q) = true
    /\ forallb (fun d => negb (d =? dquote)) q = true.

(** The shape of a match of the second alternative: a run without white
    space that is not empty and that the rest of the input does not extend. *)
Definition bare_shape (m rest : str) : Prop :=
  m <> [] /\ forallb is_nonspace m = true
  /\ match rest with [] => True | c :: _ => is_space c = true end.

(** ** Reading a trace *)

(** The argument lists handed to the operating system, in order. *)
Definition dispatched (t : list Event) : list (list str) :=
  omap (fun e => match e with
                 | SpawnSync _ args _ _ | Spawn _ args _ _ => Some args
                 | ConsoleLog _ => None
                 end) t.

Definition logged (t : list Event) : list str :=
  omap (fun e => match e with ConsoleLog l => Some l | _ => None end) t.

Definition initial (h : gmap loc Obj.t) : State :=
  {| heap := h; trace := [] |}.

(** ** Sample collaborators, for the concrete runs below *)

Module Sample.

(** Modelled from the spec: [getSpawnParameterArray] of [@nx-dotnet/utils]
    is not in this file. For [true] a single flag token, for [false] and
    [undefined] nothing, for a string or a number the flag token followed
    by the value as a token of its own. *)
Definition getSpawnParameterArray (o : Obj.t) : list str :=
  flat_map (fun kv =>
    match snd kv with
    | Obj.VBool true => [u "--" ++ fst kv]
    | Obj.VString s => [u "--" ++ fst kv; s]
    | Obj.VNumber n => [u "--" ++ fst kv; of_Z n]
    | _ => []
    end) o.

Fixpoint lookup_key (k : str) (m : Obj.KeyMap) : option str :=
  match m with
  | [] => None
  | (a, b) :: m' => if eqb a k then Some b else lookup_key k m'
  end.

(** Modelled from the spec: [swapKeysUsingMap] of [@nx-dotnet/utils] is not
    in this file. Every key present in the map is renamed to its flag
    name, the others pass through; the input is left as it is. *)
Definition swapKeysUsingMap (o : Obj.t) (m : Obj.KeyMap) : Obj.t :=
  List.map (fun kv => (default (fst kv) (lookup_key (fst kv) m), snd kv)) o.

(** The key tables of [../models] are not in this file either; a table
    with one renaming is enough for the runs below. *)
Definition keyMap : Obj.KeyMap := [(u "noRestore", u "no-restore")].

#[export] Instance utils : Utils :=
  Build_Utils getSpawnParameterArray swapKeysUsingMap
    keyMap keyMap keyMap keyMap keyMap
    str (fun output => JsString.split 10 output).

Definition env : gmap str str := {[ u "HOME" := u "/home/dev" ]}.

(** A runtime in which every child process ends with [code]. *)
Definition runtime (code : Z) : Runtime := {|
  process_env := env;
  process_cwd := u "/work";
  child_outcome := fun _ =>
    {| status := Some code; stdout := u "out"; stderr := u "err" |}
|}.

Definition sdk (version : string) : DotNetClient :=
  {| cliCommand := {| command := u "dotnet"; info_version := u version |};
     cwd := None |}.

(** [--flag=Qa b cQ --other=x], with [Q] the double quote. *)
Definition extra : str :=
  u "--flag=" ++ [dquote] ++ u "a b c" ++ [dquote] ++ u " --other=x".

(** The object [{fixWhitespace: false, fixStyle: true}]. *)
Definition style_only : Obj.t :=
  [(fixWhitespace, Obj.VBool false); (fixStyle, Obj.VBool true)].

Definition v5_0_100 : Semver.SemVer :=
  {| Semver.major := 5; Semver.minor := 0; Semver.patch := 100;
     Semver.prerelease := [] |}.

Definition v6_0_100 : Semver.SemVer :=
  {| Semver.major := 6; Semver.minor := 0; Semver.patch := 100;
     Semver.prerelease := [] |}.

Definition v7_0_100 : Semver.SemVer :=
  {| Semver.major := 7; Semver.minor := 0; Semver.patch := 100;
     Semver.prerelease := [] |}.

(** The token [--flag=Qa b cQ]. *)
Definition quoted_flag : str :=
  u "--flag=" ++ [dquote] ++ u "a b c" ++ [dquote].

(** A store with one object, [{fixWhitespace: false, fixStyle: true}], at
    address 0. *)
Definition store : State := initial {[ 0%nat := style_only ]}.

End Sample.

(** ** The remaining operations of the client *)

(** The two key tables of [../models] that the operations above do not
    use. *)
Class KeyMaps := {
  newKeyMap : Obj.KeyMap;
  addPackageKeyMap : Obj.KeyMap
}.

Section Commands.

Context {utils : Utils} {keymaps : KeyMaps} {runtime : Runtime}.

Definition new (c : DotNetClient) (template : str)
    (parameters : option Obj.t) : M unit :=
  let params := [u "new"; template] in
  let params := push_options params parameters newKeyMap in
  logAndExecute c params.

Definition addPackageReference (c : DotNetClient) (project pkg : str)
    (parameters : option Obj.t) : M unit :=
  let params := [u "add"; project; u "package"; pkg] in
  let params := push_options params parameters addPackageKeyMap in
  logAndExecute c params.

Definition addProjectReference (c : DotNetClient)
    (hostCsProj targetCsProj : str) : M unit :=
  logAndExecute c [u "add"; hostCsProj; u "reference"; targetCsProj].

Definition installTool_cmd (tool : str) (version source : option str)
    : list str :=
  let cmd := [u "tool"; u "install"; tool] in
  let cmd :=
    if truthy version then cmd ++ [u "--version"; the version] else cmd in
  let cmd :=
    if truthy source then cmd ++ [u "--add-source"; the source] else cmd in
  cmd.

Definition installTool (c : DotNetClient) (tool : str)
    (version source : option str) : M unit :=
  logAndExecute c (installTool_cmd tool version source).

Definition restorePackages (c : DotNetClient) (project : str) : M unit :=
  let cmd := [u "restore"; project] in
  logAndExecute c cmd.

Definition restoreTools (c : DotNetClient) : M unit :=
  let cmd := [u "tool"; u "restore"] in
  logAndExecute c cmd.

Definition addProjectToSolution (c : DotNetClient)
    (solutionFile project : str) : M unit :=
  let params := [u "sln"; solutionFile; u "add"; project] in
  logAndExecute c params.

Definition printSdkVersion (c : DotNetClient) : M unit :=
  logAndExecute c [u "--version"].

End Commands.

(** ** Vocabulary of the further statements *)

(** Splitting at white space: the maximal runs without white space, in
    order. *)
Fixpoint words (s : str) : list str :=
  match s with
  | [] => []
  | c :: t =>
      if is_space c then words t
      else
        match t with
        | [] => [[c]]
        | d :: _ =>
            if is_space d then [c] :: words t
            else match words t with
                 | w :: ws => (c :: w) :: ws
                 | [] => [[c]]
                 end
        end
  end.

(** The log line that announces the dispatch of [file] with [args]. *)
Definition announcement (file : str) (args : list str) : str :=
  u "Executing Command: " ++ file ++ [32; dquote]
    ++ join [dquote; 32; dquote] args ++ [dquote].

(** Every process started with inherited streams is announced: the event
    right before its dispatch is the log line showing its file and its
    arguments. [prev] is the line logged last, if the last event was a log
    line. *)
Fixpoint well_logged (prev : option str) (t : list Event) : bool :=
  match t with
  | [] => true
  | ConsoleLog l :: t' => well_logged (Some l) t'
  | SpawnSync file args _ io :: t' | Spawn file args _ io :: t' =>
      match io with
      | pipe => well_logged None t'
      | inherit =>
          match prev with
          | Some l => eqb l (announcement file args)
          | None => false
          end && well_logged None t'
      end
  end.

(** Every process of the trace is the executable of the client [c], started
    in the working directory of [c]. *)
Definition own_process (c : DotNetClient) {runtime : Runtime} (e : Event)
    : Prop :=
  match e with
  | ConsoleLog _ => True
  | SpawnSync file _ dir _ | Spawn file _ dir _ =>
      file = command (cliCommand c) /\ dir = working_directory c
  end.

(** The computation only adds events to the trace, and what it adds
    satisfies [P]. *)
Definition appends {A} (P : list Event -> Prop) (m : M A) : Prop :=
  forall st, exists t, trace (snd (m st)) = trace st ++ t /\ P t.




(** The single command of [format] when it does not split, as dispatched. *)
Definition format_unified {utils : Utils} {runtime : Runtime}
    (forceToolUsage : option bool) (project : str) (o : option Obj.t)
    : list str :=
  List.map (Regex.replace_env process_env)
    (format_base forceToolUsage ++ [project]
       ++ mapped_options o formatKeyMap).

(** A call of the client, with its arguments. *)
Inductive Call :=
| CallNew (template : str) (parameters : option Obj.t)
| CallListInstalledTemplates (opts : option ListOptions)
| CallBuild (project : str) (parameters : option Obj.t)
    (extraParameters : option str)
| CallRun (project : str) (watch : option bool) (parameters : option Obj.t)
| CallTest (project : str) (watch : option bool)
    (parameters : option Obj.t) (extraParameters : option str)
| CallAddPackageReference (project pkg : str) (parameters : option Obj.t)
| CallAddProjectReference (hostCsProj targetCsProj : str)
| CallPublish (project : str) (parameters : option Obj.t)
    (publishProfile extraParameters : option str)
| CallInstallTool (tool : str) (version source : option str)
| CallRestorePackages (project : str)
| CallRestoreTools
| CallFormat (project : str) (parameters : option loc)
    (forceToolUsage : option bool)
| CallRunTool (tool : str) (positionalParameters : option (list str))
    (parameters : option Obj.t) (extraParameters : option str)
| CallAddProjectToSolution (solutionFile project : str)
| CallPrintSdkVersion.

(** The state a computation ends in, whatever it ends with. *)
Definition final {A} (m : M A) (st : State) : State := snd (m st).

(** The state after a call of the client [c]. *)
Definition state_after {utils : Utils} {keymaps : KeyMaps}
    {runtime : Runtime} (c : DotNetClient) (call : Call) (st : State)
    : State :=
  match call with
  | CallNew template parameters => final (new c template parameters) st
  | CallListInstalledTemplates opts =>
      final (listInstalledTemplates c opts) st
  | CallBuild project parameters extraParameters =>
      final (build c project parameters extraParameters) st
  | CallRun project watch parameters =>
      final (run c project watch parameters) st
  | CallTest project watch parameters extraParameters =>
      final (test c project watch parameters extraParameters) st
  | CallAddPackageReference project pkg parameters =>
      final (addPackageReference c project pkg parameters) st
  | CallAddProjectReference hostCsProj targetCsProj =>
      final (addProjectReference c hostCsProj targetCsProj) st
  | CallPublish project parameters publishProfile extraParameters =>
      final (publish c project parameters publishProfile extraParameters) st
  | CallInstallTool tool version source =>
      final (installTool c tool version source) st
  | CallRestorePackages project => final (restorePackages c project) st
  | CallRestoreTools => final (restoreTools c) st
  | CallFormat project parameters forceToolUsage =>
      final (format c project parameters forceToolUsage) st
  | CallRunTool tool positionalParameters parameters extraParameters =>
      final (runTool c tool positionalParameters parameters extraParameters)
        st
  | CallAddProjectToSolution solutionFile project =>
      final (addProjectToSolution c solutionFile project) st
  | CallPrintSdkVersion => final (printSdkVersion c) st
  end.

(** How a computation ends, its value put aside. *)
Definition ending {A} (m : M A) (st : State) : Outcome unit :=
  outcome_map (fun _ => tt) (fst (m st)).

(** How a call of the client [c] ends. *)
Definition call_outcome {utils : Utils} {keymaps : KeyMaps}
    {runtime : Runtime} (c : DotNetClient) (call : Call) (st : State)
    : Outcome unit :=
  match call with
  | CallNew template parameters => ending (new c template parameters) st
  | CallListInstalledTemplates opts =>
      ending (listInstalledTemplates c opts) st
  | CallBuild project parameters extraParameters =>
      ending (build c project parameters extraParameters) st
  | CallRun project watch parameters =>
      ending (run c project watch parameters) st
  | CallTest project watch parameters extraParameters =>
      ending (test c project watch parameters extraParameters) st
  | CallAddPackageReference project pkg parameters =>
      ending (addPackageReference c project pkg parameters) st
  | CallAddProjectReference hostCsProj targetCsProj =>
      ending (addProjectReference c hostCsProj targetCsProj) st
  | CallPublish project parameters publishProfile extraParameters =>
      ending (publish c project parameters publishProfile extraParameters) st
  | CallInstallTool tool version source =>
      ending (installTool c tool version source) st
  | CallRestorePackages project => ending (restorePackages c project) st
  | CallRestoreTools => ending (restoreTools c) st
  | CallFormat project parameters forceToolUsage =>
      ending (format c project parameters forceToolUsage) st
  | CallRunTool tool positionalParameters parameters extraParameters =>
      ending (runTool c tool positionalParameters parameters extraParameters)
        st
  | CallAddProjectToSolution solutionFile project =>
      ending (addProjectToSolution c solutionFile project) st
  | CallPrintSdkVersion => ending (printSdkVersion c) st
  end.

(** The calls that wait for their one process: all but [run], [test] in
    watch mode and [format]. *)
Definition waits_for_one (call : Call) : bool :=
  match call with
  | CallRun _ _ _ | CallFormat _ _ _ => false
  | CallTest _ watch _ _ => negb (flag watch)
  | _ => true
  end.

Module SampleMore.

(** The two further key tables are not in this file; as for the others, a
    table with one renaming is enough for the runs below. *)
#[export] Instance keymaps : KeyMaps :=
  {| newKeyMap := Sample.keyMap; addPackageKeyMap := Sample.keyMap |}.


End SampleMore.

(** * Properties *)

(** ** The tokenizer *)

Section Tokenizer.

Import Regex.

Lemma span_app (p : N -> bool) (s a b : str) :
  span p s = (a, b) -> s = a ++ b.
Proof.
  revert a b; induction s as [|c t IH]; intros a b E; simpl in E.
  - now inversion E.
  - destruct (p c); [|now inversion E].
    destruct (span p t) as [a' b'] eqn:Et. inversion E; subst.
    simpl. f_equal. now apply IH.
Qed.

Lemma span_all (p : N -> bool) (s a b : str) :
  span p s = (a, b) -> forallb p a = true.
Proof.
  revert a b; induction s as [|c t IH]; intros a b E; simpl in E.
  - now inversion E.
  - destruct (p c) eqn:Ec; [|now inversion E].
    destruct (span p t) as [a' b'] eqn:Et. inversion E; subst.
    simpl. rewrite Ec. simpl. eapply IH; eauto.
Qed.

Lemma span_stop (p : N -> bool) (s a b : str) :
  span p s = (a, b) ->
  match b with [] => True | c :: _ => p c = false end.
Proof.
  revert a b; induction s as [|c t IH]; intros a b E; simpl in E.
  - now inversion E.
  - destruct (p c) eqn:Ec.
    + destruct (span p t) as [a' b'] eqn:Et. inversion E; subst.
      eapply IH; eauto.
    + now inversion E; subst.
Qed.

Lemma lazy_to_quote_shape (s m rest : str) :
  lazy_to_quote s = Some (m, rest) ->
  exists q, m = q ++ [dquote] /\ s = m ++ rest
    /\ forallb is_dot q = true
    /\ forallb (fun d => negb (d =? dquote)) q = true.
Proof.
  revert m rest; induction s as [|c t IH]; intros m rest E; simpl in E.
  - discriminate.
  - destruct (c =? dquote) eqn:Ec.
    + inversion E; subst. apply N.eqb_eq in Ec; subst c.
      now exists [].
    + destruct (is_dot c) eqn:Ed; [|discriminate].
      destruct (lazy_to_quote t) as [[m' r']|] eqn:Et; [|discriminate].
      inversion E; subst.
      destruct (IH _ _ eq_refl) as (q & -> & -> & Hd & Hq).
      exists (c :: q). simpl. rewrite Ec, Ed, Hd, Hq.
      repeat split; reflexivity.
Qed.

Lemma quoted_group_shape (s m rest : str) :
  quoted_group s = Some (m, rest) ->
  s = m ++ rest /\ quoted_shape m.
Proof.
  unfold quoted_group. destruct s as [|q [|c t]]; try discriminate.
  destruct (q =? dquote) eqn:Eq; [|discriminate]. simpl.
  destruct (is_dot c) eqn:Ec; [|discriminate].
  destruct (lazy_to_quote t) as [[m' r']|] eqn:Et; [|discriminate].
  intros E; inversion E; subst.
  apply N.eqb_eq in Eq; subst q.
  destruct (lazy_to_quote_shape _ _ _ Et) as (q' & -> & -> & Hd & Hq).
  split; [reflexivity|].
  exists [], c, q'. simpl. rewrite Ec, Hd, Hq. repeat split; reflexivity.
Qed.

Lemma alt_quoted_shape (s m rest : str) :
  alt_quoted s = Some (m, rest) ->
  s = m ++ rest /\ quoted_shape m.
Proof.
  revert m rest; induction s as [|c t IH]; intros m rest E; simpl in E.
  - discriminate.
  - destruct (is_nonspace c) eqn:Ec.
    + destruct (alt_quoted t) as [[m' r']|] eqn:Et.
      * inversion E; subst.
        destruct (IH _ _ eq_refl) as (-> & p & d & q & -> & Hp & Hd & Hq).
        split; [reflexivity|].
        exists (c :: p), d, q. simpl. rewrite Ec, Hp.
        repeat split; assumption.
      * now apply quoted_group_shape.
    + now apply quoted_group_shape.
Qed.

Lemma alt_bare_shape (s m rest : str) :
  alt_bare s = Some (m, rest) ->
  s = m ++ rest /\ bare_shape m rest.
Proof.
  unfold alt_bare. destruct (span is_nonspace s) as [a b] eqn:E.
  destruct a as [|c a]; [discriminate|].
  intros E'; inversion E'; subst.
  split; [now apply span_app in E|].
  split; [discriminate|]. split; [now apply span_all in E|].
  apply span_stop in E. destruct rest; [exact I|].
  unfold is_nonspace in E. now apply negb_false_iff in E.
Qed.

(** A match is of one of the two shapes, and the quoted one is preferred. *)
Lemma match_at_shape (s m rest : str) :
  match_at s = Some (m, rest) ->
  s = m ++ rest
  /\ (quoted_shape m \/ (alt_quoted s = None /\ bare_shape m rest)).
Proof.
  unfold match_at. destruct (alt_quoted s) as [[m' r']|] eqn:E.
  - intros E'; inversion E'; subst.
    destruct (alt_quoted_shape _ _ _ E). auto.
  - intros E'. destruct (alt_bare_shape _ _ _ E'). auto.
Qed.

Lemma match_at_nonempty (s m rest : str) :
  match_at s = Some (m, rest) -> m <> [].
Proof.
  intros E. destruct (match_at_shape _ _ _ E) as (_ & [Hq | (_ & Hb & _)]).
  - destruct Hq as (p & c & q & -> & _). now destruct p.
  - exact Hb.
Qed.

(** Every token the scan returns is a match at some index of the input. *)
Lemma scan_tokens (s : str) (skip : nat) (tok : str) :
  In tok (scan skip s) ->
  exists before rest,
    s = before ++ tok ++ rest /\ match_at (tok ++ rest) = Some (tok, rest).
Proof.
  revert skip; induction s as [|c t IH]; intros skip Hin; simpl in Hin.
  - destruct Hin.
  - destruct skip as [|n].
    + destruct (match_at (c :: t)) as [[m r]|] eqn:E.
      * destruct Hin as [<- | Hin].
        -- destruct (match_at_shape _ _ _ E) as (Hs & _).
           exists [], r. simpl. rewrite <- Hs. auto.
        -- destruct (IH _ Hin) as (b & r' & -> & Hm).
           exists (c :: b), r'. auto.
      * destruct (IH _ Hin) as (b & r' & -> & Hm).
        exists (c :: b), r'. auto.
    + destruct (IH _ Hin) as (b & r' & -> & Hm).
      exists (c :: b), r'. auto.
Qed.

Lemma space_not_quote (c : N) : is_space c = true -> (c =? dquote) = false.
Proof.
  intros Hc. destruct (c =? dquote) eqn:E; [|reflexivity].
  apply N.eqb_eq in E; subst c. discriminate.
Qed.

Lemma match_at_space (c : N) (t : str) :
  is_space c = true -> match_at (c :: t) = None.
Proof.
  intros Hc. unfold match_at, alt_bare. simpl.
  unfold is_nonspace. rewrite Hc. simpl.
  unfold quoted_group. rewrite (space_not_quote c Hc). simpl.
  now destruct t.
Qed.

Lemma scan_whitespace (s : str) :
  forallb is_space s = true -> scan O s = [].
Proof.
  induction s as [|c t IH]; [reflexivity|]. simpl forallb.
  intros Hs. apply andb_true_iff in Hs as [Hc Ht].
  change (scan 0 (c :: t))
    with (match match_at (c :: t) with
          | Some (m, _) => m :: scan (pred (length m)) t
          | None => scan O t
          end).
  rewrite (match_at_space c t Hc). now apply IH.
Qed.

(** A string of white space has no match at all: [match] returns [null]. *)
Lemma match_whitespace_null (s : str) :
  forallb is_space s = true -> match_EXTRA_PARAMS_REGEX s = None.
Proof.
  intros Hs. unfold match_EXTRA_PARAMS_REGEX. now rewrite scan_whitespace.
Qed.

End Tokenizer.

(** ** The executor *)

Section Executor.

Context {utils : Utils} {runtime : Runtime}.

Lemma exited_normally_status (res : SpawnSyncReturns) :
  exited_normally res =
  match status res with Some 0%Z => true | _ => false end.
Proof.
  unfold exited_normally.
  destruct (status res) as [[|p|p]|]; reflexivity.
Qed.

(** One blocking call with inherited streams, spelled out: the log line,
    then the dispatch, then the verdict on the exit status. *)
Lemma logAndExecute_run (c : DotNetClient) (params : list str) (st : State) :
  let args := List.map (Regex.replace_env process_env) params in
  let st' := after st [ConsoleLog (log_line c args);
                       SpawnSync (command (cliCommand c)) args
                         (working_directory c) inherit] in
  logAndExecute c params st =
    (if exited_normally (child_outcome (trace st'))
     then Returned tt
     else Thrown (Error (u "dotnet execution returned status code "
                           ++ show_status (status (child_outcome (trace st'))))),
     st').
Proof.
  unfold logAndExecute, spawnSync, bind, emit, history, ret, throw, after,
    log_line.
  cbn [heap trace]. rewrite <- app_assoc. cbn [app].
  now destruct (exited_normally _).
Qed.

Lemma spawnAndGetOutput_run (c : DotNetClient) (params : list str)
    (st : State) :
  let args := List.map (Regex.replace_env process_env) params in
  let st' := after st [SpawnSync (command (cliCommand c)) args
                         (working_directory c) pipe] in
  let res := child_outcome (trace st') in
  spawnAndGetOutput c params st =
    (if exited_normally res
     then Returned (stdout res)
     else Thrown (Error (u "dotnet execution returned status code "
                           ++ show_status (status res) ++ [32; 10; 32]
                           ++ stderr res)),
     st').
Proof.
  unfold spawnAndGetOutput, spawnSync, bind, emit, history, ret, throw,
    after.
  cbn [heap trace].
  now destruct (exited_normally _).
Qed.

Lemma logAndSpawn_run (c : DotNetClient) (params : list str) (st : State) :
  logAndSpawn c params st =
    (Returned {| spawnfile := command (cliCommand c);
                 spawnargs := command (cliCommand c) :: params |},
     after st [ConsoleLog (log_line c params);
               Spawn (command (cliCommand c)) params
                 (working_directory c) inherit]).
Proof.
  unfold logAndSpawn, spawn, bind, emit, ret, after, log_line.
  cbn [heap trace]. now rewrite <- app_assoc.
Qed.

(** C4. A blocking call whose process ends with a status other than zero
    throws an error whose message carries the status (and, when the output
    is captured, the text of the error stream); the spawn call returns a
    handle whatever becomes of the process. On status zero the inherited
    mode returns nothing and the captured mode returns the captured
    standard output. *)
Theorem C4_exit_status (c : DotNetClient) (params : list str) (st : State) :
  let args := List.map (Regex.replace_env process_env) params in
  let file := command (cliCommand c) in
  let inherited :=
    child_outcome (trace st ++ [ConsoleLog (log_line c args);
                                SpawnSync file args (working_directory c)
                                  inherit]) in
  let captured :=
    child_outcome (trace st ++ [SpawnSync file args (working_directory c)
                                  pipe]) in
  fst (logAndExecute c params st) =
    match status inherited with
    | Some 0%Z => Returned tt
    | code =>
        Thrown (Error (u "dotnet execution returned status code "
                         ++ show_status code))
    end
  /\ fst (spawnAndGetOutput c params st) =
    match status captured with
    | Some 0%Z => Returned (stdout captured)
    | code =>
        Thrown (Error (u "dotnet execution returned status code "
                         ++ show_status code ++ [32; 10; 32]
                         ++ stderr captured))
    end
  /\ fst (logAndSpawn c params st) =
    Returned {| spawnfile := file; spawnargs := file :: params |}.
Proof.
  cbn zeta. rewrite logAndExecute_run, spawnAndGetOutput_run, logAndSpawn_run.
  cbn zeta. cbn [fst]. rewrite !exited_normally_status. unfold after.
  cbn [trace].
  repeat split.
  - now destruct (status _) as [[|p|p]|].
  - now destruct (status _) as [[|p|p]|].
Qed.

(** What each mode adds to the trace. Only the two modes whose name says
    so write a log line, and they write it before the dispatch; the
    captured mode dispatches without logging. *)
Lemma modes_trace (c : DotNetClient) (params : list str) (st : State) :
  let args := List.map (Regex.replace_env process_env) params in
  let file := command (cliCommand c) in
  let dir := working_directory c in
  trace (snd (logAndExecute c params st)) =
    trace st ++ [ConsoleLog (log_line c args); SpawnSync file args dir inherit]
  /\ trace (snd (logAndSpawn c params st)) =
    trace st ++ [ConsoleLog (log_line c params); Spawn file params dir inherit]
  /\ trace (snd (spawnAndGetOutput c params st)) =
    trace st ++ [SpawnSync file args dir pipe].
Proof.
  cbn zeta. rewrite logAndExecute_run, spawnAndGetOutput_run, logAndSpawn_run.
  repeat split.
Qed.

(** C6, as the code has it. In the inherited blocking mode and in the spawn
    mode the line [Executing Command: <file> Q<arg>Q ...] (with [Q] the
    double quote), showing the command as dispatched, is written right
    before the dispatch; the captured blocking mode writes no log line. *)
Theorem C6_log_line_before_dispatch (c : DotNetClient) (params : list str)
    (st : State) :
  let args := List.map (Regex.replace_env process_env) params in
  let file := command (cliCommand c) in
  let dir := working_directory c in
  let line (shown : list str) :=
    u "Executing Command: " ++ file ++ [32; dquote]
      ++ join [dquote; 32; dquote] shown ++ [dquote] in
  trace (snd (logAndExecute c params st)) =
    trace st ++ [ConsoleLog (line args); SpawnSync file args dir inherit]
  /\ trace (snd (logAndSpawn c params st)) =
    trace st ++ [ConsoleLog (line params); Spawn file params dir inherit]
  /\ trace (snd (spawnAndGetOutput c params st)) =
    trace st ++ [SpawnSync file args dir pipe]
  /\ logged (trace (snd (spawnAndGetOutput c params st))) = logged (trace st).
Proof.
  cbn zeta. destruct (modes_trace c params st) as (H1 & H2 & H3).
  repeat split; try assumption.
  rewrite H3. unfold logged. rewrite omap_app. cbn. apply app_nil_r.
Qed.

End Executor.

(** ** The format operation *)

Section Format.

Context {utils : Utils} {runtime : Runtime}.

Lemma dispatched_app (t t' : list Event) :
  dispatched (t ++ t') = dispatched t ++ dispatched t'.
Proof. apply omap_app. Qed.

Variables (c : DotNetClient) (project : str) (l : loc) (o : Obj.t)
  (forceToolUsage : option bool) (st : State) (version : Semver.SemVer).

Hypothesis Hversion : Semver.parse (getSdkVersion c) = Some version.
Hypothesis Hsplit : split_path version o.
Hypothesis Hobj : heap st !! l = Some o.

(** On the split path [format] is: delete the three flags from the caller's
    object, then go through the sub-invocations whose flag is not [false],
    each built from a copy of what is left of the object. *)
Lemma format_split_path :
  format c project (Some l) forceToolUsage st =
    ((if Obj.not_false (Obj.get fixWhitespace o) then
        logAndExecute c
          (format_base forceToolUsage ++ [u "whitespace"; project]
             ++ getSpawnParameterArray
                  (Obj.delete fixWhitespace (without_fix_flags o)))
      else ret tt) ;;
     (if Obj.not_false (Obj.get fixStyle o) then
        logAndExecute c
          (format_base forceToolUsage ++ [u "style"; project]
             ++ getSpawnParameterArray
                  (Obj.delete fixStyle
                     (set_severity (Obj.get fixStyle o)
                        (without_fix_flags o))))
      else ret tt) ;;
     (if Obj.not_false (Obj.get fixAnalyzers o) then
        logAndExecute c
          (format_base forceToolUsage ++ [u "analyzers"; project]
             ++ getSpawnParameterArray
                  (Obj.delete fixAnalyzers
                     (set_severity (Obj.get fixAnalyzers o)
                        (without_fix_flags o))))
      else ret tt)) (flags_deleted st l o).
Proof.
  unfold format, semver_parse. rewrite Hversion.
  unfold bind at 1. unfold ret at 1.
  unfold optional_prop, prop, delete_prop, deref, update, bind, ret.
  cbn [heap trace]. rewrite Hobj. cbn [default from_option id].
  destruct Hsplit as [Hmajor Hflag].
  apply N.leb_le in Hmajor. rewrite Hmajor, Hflag.
  cbn [andb]. cbv beta. rewrite Hobj. cbn [default from_option id heap trace].
  rewrite (alter_alt _ (heap st)), Hobj, !alter_insert_eq.
  fold (without_fix_flags o). fold (flags_deleted st l o).
  fold (format_base forceToolUsage).
  destruct (Obj.not_false (Obj.get fixWhitespace o)),
    (Obj.not_false (Obj.get fixStyle o)),
    (Obj.not_false (Obj.get fixAnalyzers o));
    repeat first
      [ progress (unfold spread, deref;
                  cbn [heap trace after flags_deleted fst snd];
                  rewrite ?lookup_insert_eq; cbn [default from_option id])
      | rewrite !logAndExecute_run; cbn zeta
      | match goal with
        | |- context [exited_normally ?r] => destruct (exited_normally r)
        end ];
    reflexivity.
Qed.

(** Whatever the children do, the sub-invocations leave the store alone
    and dispatch an initial part of the plan; all of it when every child
    ends with status zero. *)
Lemma format_split_effect :
  let st' := snd (format c project (Some l) forceToolUsage st) in
  heap st' = <[l := without_fix_flags o]> (heap st)
  /\ (exists n, dispatched (trace st') =
                dispatched (trace st)
                  ++ take n (format_plan forceToolUsage project o))
  /\ ((forall t, status (child_outcome t) = Some 0%Z) ->
      dispatched (trace st') =
        dispatched (trace st) ++ format_plan forceToolUsage project o).
Proof.
  cbn zeta. rewrite format_split_path. unfold format_plan, bind, ret.
  destruct (Obj.not_false (Obj.get fixWhitespace o)),
    (Obj.not_false (Obj.get fixStyle o)),
    (Obj.not_false (Obj.get fixAnalyzers o)).
  all: rewrite ?logAndExecute_run; cbn zeta.
  all: repeat match goal with
         | |- context [exited_normally ?r] =>
             let E := fresh "E" in
             destruct (exited_normally r) eqn:E;
             rewrite ?logAndExecute_run; cbn zeta
         end.
  all: cbn [snd heap trace after flags_deleted].
  all: rewrite ?dispatched_app; cbn [dispatched omap list_omap app].
  all: fold (format_sub forceToolUsage).
  all: rewrite <- ?app_assoc; cbn [app].
  all: split; [reflexivity|split].
  all: try (intros Hok;
            repeat match goal with
              | E : exited_normally _ = false |- _ =>
                  unfold exited_normally in E; rewrite Hok in E;
                  discriminate E
              end;
            now rewrite ?app_nil_r).
  all: first [ now exists 0%nat; rewrite ?app_nil_r
             | now exists 1%nat | now exists 2%nat | now exists 3%nat ].
Qed.
End Format.

(** ** Deleting properties *)

Section Objects.

Import Obj.

Lemma has_delete_eq (k : str) (o : Obj.t) : has k (delete k o) = false.
Proof.
  induction o as [|[k' v] o IH]; [reflexivity|].
  unfold delete, has in *. cbn [List.filter fst].
  destruct (eqb k' k) eqn:E; cbn [negb]; [exact IH|].
  cbn [existsb fst]. now rewrite E.
Qed.

Lemma eqb_neq (a b : str) : a <> b -> eqb a b = false.
Proof. intros. unfold eqb. now apply bool_decide_eq_false. Qed.

Lemma eqb_true (a b : str) : eqb a b = true -> a = b.
Proof. unfold eqb. apply bool_decide_eq_true. Qed.

Lemma has_delete_ne (k k' : str) (o : Obj.t) :
  k <> k' -> has k (delete k' o) = has k o.
Proof.
  intros Hne. induction o as [|[a v] o IH]; [reflexivity|].
  unfold delete, has in *. cbn [List.filter existsb fst].
  destruct (eqb a k') eqn:E; cbn [negb existsb fst].
  - apply eqb_true in E; subst a.
    rewrite (eqb_neq k' k) by congruence. exact IH.
  - now rewrite IH.
Qed.

Lemma get_delete_ne (k k' : str) (o : Obj.t) :
  k <> k' -> get k (delete k' o) = get k o.
Proof.
  intros Hne. induction o as [|[a v] o IH]; [reflexivity|].
  unfold delete in *. cbn [List.filter get fst].
  destruct (eqb a k') eqn:E; cbn [negb get].
  - apply eqb_true in E; subst a.
    rewrite (eqb_neq k' k) by congruence. exact IH.
  - now rewrite IH.
Qed.

Lemma has_delete_false (k k' : str) (o : Obj.t) :
  has k o = false -> has k (delete k' o) = false.
Proof.
  intros Hk. destruct (decide (k = k')) as [->|Hne].
  - apply has_delete_eq.
  - now rewrite has_delete_ne.
Qed.

(** What is left after the three [delete]s of [format]. *)
Lemma without_fix_flags_spec (o : Obj.t) :
  has fixWhitespace (without_fix_flags o) = false
  /\ has fixStyle (without_fix_flags o) = false
  /\ has fixAnalyzers (without_fix_flags o) = false
  /\ forall k, k <> fixWhitespace -> k <> fixStyle -> k <> fixAnalyzers ->
       has k (without_fix_flags o) = has k o
       /\ get k (without_fix_flags o) = get k o.
Proof.
  unfold without_fix_flags. repeat split.
  - do 2 apply has_delete_false. apply has_delete_eq.
  - apply has_delete_false. apply has_delete_eq.
  - apply has_delete_eq.
  - now rewrite !has_delete_ne.
  - now rewrite !get_delete_ne.
Qed.

End Objects.

Section FormatClaims.

Context {utils : Utils} {runtime : Runtime}.


(** C9. On the split path [format] deletes [fixWhitespace], [fixStyle] and
    [fixAnalyzers] from the object the caller passed: after the call,
    however it ends, the caller's object has none of the three keys, its
    other properties are as they were, and no other object of the store has
    changed. *)
Theorem C9_format_mutates_caller_object (c : DotNetClient) (project : str)
    (l : loc) (o : Obj.t) (forceToolUsage : option bool) (st : State)
    (version : Semver.SemVer) :
  Semver.parse (getSdkVersion c) = Some version ->
  split_path version o ->
  heap st !! l = Some o ->
  let st' := snd (format c project (Some l) forceToolUsage st) in
  exists o',
    heap st' !! l = Some o'
    /\ o' = Obj.delete fixAnalyzers
              (Obj.delete fixStyle (Obj.delete fixWhitespace o))
    /\ Obj.has fixWhitespace o' = false
    /\ Obj.has fixStyle o' = false
    /\ Obj.has fixAnalyzers o' = false
    /\ (forall k, k <> fixWhitespace -> k <> fixStyle -> k <> fixAnalyzers ->
          Obj.has k o' = Obj.has k o /\ Obj.get k o' = Obj.get k o)
    /\ (forall l', l' <> l -> heap st' !! l' = heap st !! l').
Proof.
  intros Hv Hs Ho. cbn zeta.
  destruct (format_split_effect c project l o forceToolUsage st version
              Hv Hs Ho) as (Hheap & _).
  cbn zeta in Hheap. rewrite Hheap.
  exists (without_fix_flags o).
  destruct (without_fix_flags_spec o) as (A & B & C & D).
  repeat split; try assumption; try apply D; try assumption.
  - apply lookup_insert_eq.
  - intros l' Hl'. now apply lookup_insert_ne.
Qed.

End FormatClaims.

(** ** Version bands *)

Section Versions.

Import Semver.

Lemma gte_not_lt (v : SemVer) (r : Release) : gte v r = negb (lt v r).
Proof. unfold gte, lt. now destruct (compare v r). Qed.

(** Below [6.0.100] is below [7.0.100]. *)
Lemma lt_6_lt_7 (v : SemVer) : lt v v6_0_100 = true -> lt v v7_0_100 = true.
Proof.
  unfold lt, compare, compareMain, comparePre, v6_0_100, v7_0_100.
  cbn [rmajor rminor rpatch].
  destruct (major v ?= 6) eqn:E6; try discriminate.
  - apply N.compare_eq in E6. rewrite E6. reflexivity.
  - intros _. pose proof (proj1 (N.compare_lt_iff _ _) E6) as L6.
    assert (E7 : (major v ?= 7) = Lt) by (apply N.compare_lt_iff; lia).
    now rewrite E7.
Qed.

(** The three bands cover every version and exclude one another. *)
Lemma bands (v : SemVer) :
  (lt v v6_0_100 = true /\ gte v v6_0_100 = false /\ gte v v7_0_100 = false)
  \/ (lt v v6_0_100 = false /\ gte v v6_0_100 = true
      /\ gte v v7_0_100 = false)
  \/ (lt v v6_0_100 = false /\ gte v v6_0_100 = true
      /\ gte v v7_0_100 = true).
Proof.
  rewrite !gte_not_lt.
  destruct (lt v v6_0_100) eqn:E6.
  - left. now rewrite (lt_6_lt_7 v E6).
  - right. destruct (lt v v7_0_100); auto.
Qed.

End Versions.

(** ** Assembling the argument lists *)

Section Assembly.

Context {utils : Utils} {runtime : Runtime}.

Lemma push_options_app (params : list str) (parameters : option Obj.t)
    (keyMap : Obj.KeyMap) :
  push_options params parameters keyMap =
    params ++ mapped_options parameters keyMap.
Proof.
  destruct parameters; cbn; [reflexivity|now rewrite app_nil_r].
Qed.

Lemma push_extra_tokens (params : list str) (extraParameters : option str)
    (st : State) :
  push_extra params extraParameters st =
    (outcome_map (app params) (extra_tokens extraParameters), st).
Proof.
  unfold push_extra, extra_tokens.
  destruct (truthy extraParameters); cbn.
  - now destruct (Regex.match_EXTRA_PARAMS_REGEX _).
  - unfold ret. now rewrite app_nil_r.
Qed.

(** C2. With a search term, the arguments of [listInstalledTemplates]
    depend on the band of the SDK version: below [6.0.100] the term comes
    before [--list]; from [6.0.100] and below [7.0.100] it comes after
    [--list]; from [7.0.100] the token is the word [list] and the term
    comes after it. A language, when given, follows in all three. Every
    version is in exactly one band. *)
Theorem C2_template_listing_bands (c : DotNetClient)
    (version : Semver.SemVer) (term : str) (lang : option str) :
  Semver.parse (getSdkVersion c) = Some version ->
  term <> [] ->
  let opts := Some {| search := Some term; language := lang |} in
  let tail := if truthy lang then [u "--language"; the lang] else [] in
  (Semver.lt version Semver.v6_0_100 = true ->
     listInstalledTemplates_params version opts
       = [u "new"; term; u "--list"] ++ tail)
  /\ (Semver.gte version Semver.v6_0_100 = true ->
      Semver.lt version Semver.v7_0_100 = true ->
      listInstalledTemplates_params version opts
        = [u "new"; u "--list"; term] ++ tail)
  /\ (Semver.gte version Semver.v7_0_100 = true ->
      listInstalledTemplates_params version opts
        = [u "new"; u "list"; term] ++ tail)
  /\ forall st,
       dispatched (trace (snd (listInstalledTemplates c opts st)))
         = dispatched (trace st)
             ++ [List.map (Regex.replace_env process_env)
                   (listInstalledTemplates_params version opts)].
Proof.
  intros Hv Hterm. cbn zeta.
  assert (Ht : truthy (Some term) = true) by now destruct term.
  unfold listInstalledTemplates_params. cbn [mbind option_bind search language].
  rewrite Ht, !andb_true_r. cbn [the default from_option id].
  destruct (bands version) as [(A & B & C)|[(A & B & C)|(A & B & C)]];
    rewrite A, B, C.
  all: repeat split; try discriminate.
  all: try (rewrite gte_not_lt in C; intros _ E; rewrite E in C;
            discriminate).
  all: try (destruct (truthy lang); reflexivity).
  all: intros st; unfold listInstalledTemplates, semver_parse, bind, ret;
    rewrite Hv; rewrite spawnAndGetOutput_run; cbn zeta;
    unfold listInstalledTemplates_params;
    cbn [mbind option_bind search language];
    rewrite Ht, A, B, C; cbn [andb the default from_option id];
    match goal with
    | |- context [exited_normally ?r] => destruct (exited_normally r)
    end;
    cbn [snd trace after]; rewrite dispatched_app;
    destruct (truthy lang); reflexivity.
Qed.



Lemma extra_tokens_whitespace (s : str) :
  s <> [] -> forallb is_space s = true ->
  extra_tokens (Some s) = Thrown (TypeError SpreadOfNull).
Proof.
  intros Hne Hs. unfold extra_tokens.
  destruct s as [|a s']; [congruence|]. cbn [truthy the default from_option id].
  now rewrite match_whitespace_null.
Qed.

(** C10. An extra-parameter string that is not empty and holds only white
    space makes [build], [test], [publish] and [runTool] throw a
    [TypeError]: the match is [null] and is spread. The state is the one
    before the call, so nothing was logged and no process was started. An
    empty string, as a missing one, adds no token and throws nothing. *)
Theorem C10_whitespace_extra_throws (c : DotNetClient) (s project tool : str)
    (watch : option bool) (parameters : option Obj.t)
    (publishProfile : option str) (positional : option (list str))
    (st : State) :
  s <> [] ->
  forallb is_space s = true ->
  Regex.match_EXTRA_PARAMS_REGEX s = None
  /\ build c project parameters (Some s) st
       = (Thrown (TypeError SpreadOfNull), st)
  /\ test c project watch parameters (Some s) st
       = (Thrown (TypeError SpreadOfNull), st)
  /\ publish c project parameters publishProfile (Some s) st
       = (Thrown (TypeError SpreadOfNull), st)
  /\ runTool c tool positional parameters (Some s) st
       = (Thrown (TypeError SpreadOfNull), st)
  /\ extra_tokens (Some []) = Returned []
  /\ extra_tokens None = Returned [].
Proof.
  intros Hne Hs.
  pose proof (extra_tokens_whitespace s Hne Hs) as Hx.
  split; [now apply match_whitespace_null|].
  unfold build, test, publish, runTool, build_params, test_params,
    publish_params, runTool_params, bind.
  rewrite !push_extra_tokens, Hx. cbn [outcome_map].
  repeat split.
Qed.

(** *** The substitution done by the two blocking modes *)


(** A token without the pattern passes through unchanged. *)
Lemma replace_env_no_match (env : gmap str str) (s : str) :
  has_variable s = false -> Regex.replace_env env s = s.
Proof.
  induction s as [|a t IH]; [reflexivity|]. cbn [has_variable].
  intros Hs. apply orb_false_iff in Hs as [Ha Ht].
  cbn [Regex.replace_env]. destruct (a =? dollar) eqn:Ea.
  - destruct t as [|d t']; [reflexivity|]. cbn [andb] in Ha.
    cbn [span]. rewrite Ha. now rewrite (IH Ht).
  - now rewrite (IH Ht).
Qed.


End Assembly.

(** ** Concrete runs *)

Section Runs.

Import Sample.

#[local] Existing Instance utils.

(** The version strings of the examples parse to the versions used below. *)
Example parse_releases :
  Semver.parse (u "5.0.100") = Some v5_0_100
  /\ Semver.parse (u "6.0.100") = Some v6_0_100
  /\ Semver.parse (u "7.0.100") = Some v7_0_100
  /\ Semver.parse (u "7.0.100-rc.2.22477.23")
     = Some {| Semver.major := 7; Semver.minor := 0; Semver.patch := 100;
               Semver.prerelease := [u "rc"; u "2"; u "22477"; u "23"] |}
  /\ Semver.parse (u "7.0") = None.
Proof. vm_compute. repeat split. Qed.

(** A release candidate of [7.0.100] is still in the middle band. *)
Example prerelease_band :
  listInstalledTemplates_params
    {| Semver.major := 7; Semver.minor := 0; Semver.patch := 100;
       Semver.prerelease := [u "rc"; u "2"; u "22477"; u "23"] |}
    (Some {| search := Some (u "web"); language := Some (u "C#") |})
  = [u "new"; u "--list"; u "web"; u "--language"; u "C#"].
Proof. vm_compute. reflexivity. Qed.

(** A child that ends with status 1: both blocking modes throw, the spawn
    mode hands back the handle. *)
Example status_1 :
  let c := sdk "6.0.100" in
  fst (logAndExecute (runtime := runtime 1) c [u "restore"] (initial ∅))
    = Thrown (Error (u "dotnet execution returned status code 1"))
  /\ fst (spawnAndGetOutput (runtime := runtime 1) c [u "restore"]
            (initial ∅))
     = Thrown (Error (u "dotnet execution returned status code 1 "
                        ++ [10] ++ u " err"))
  /\ fst (logAndSpawn (runtime := runtime 1) c [u "restore"] (initial ∅))
     = Returned {| spawnfile := u "dotnet";
                   spawnargs := [u "dotnet"; u "restore"] |}.
Proof. vm_compute. repeat split. Qed.

(** Tokens of some extra-parameter strings: a quoted group may hold white
    space, a quote that is never closed does not glue anything. *)
Example tokens :
  Regex.match_EXTRA_PARAMS_REGEX (u "-c Release  --no-build")
    = Some [u "-c"; u "Release"; u "--no-build"]
  /\ Regex.match_EXTRA_PARAMS_REGEX (u "-p:A=" ++ [dquote] ++ u "x y")
     = Some [u "-p:A=" ++ [dquote] ++ u "x"; u "y"]
  /\ Regex.match_EXTRA_PARAMS_REGEX (u " " ++ [9; 10]) = None.
Proof. vm_compute. repeat split. Qed.

(** C7. The string [--flag=Qa b cQ --other=x] (with [Q] the double quote)
    gives the two tokens [--flag=Qa b cQ] and [--other=x]. In general every
    token is a match at some index of the string, and a match is either a
    run without white space followed by a quoted group, kept whole, or,
    when no such match starts there, a longest run without white space. *)
Theorem C7_tokenizer :
  Regex.match_EXTRA_PARAMS_REGEX extra = Some [quoted_flag; u "--other=x"]
  /\ forall s tok,
       In tok (Regex.scan 0 s) ->
       exists before rest,
         s = before ++ tok ++ rest
         /\ Regex.match_at (tok ++ rest) = Some (tok, rest)
         /\ (quoted_shape tok
             \/ (Regex.alt_quoted (tok ++ rest) = None
                 /\ bare_shape tok rest)).
Proof.
  split; [vm_compute; reflexivity|].
  intros s tok Hin.
  destruct (scan_tokens s 0 tok Hin) as (before & rest & Hs & Hm).
  exists before, rest. repeat split; try assumption.
  now destruct (match_at_shape _ _ _ Hm) as (_ & Hshape).
Qed.

Lemma C7_tokenizer_witness :
  exists before rest,
    extra = before ++ u "--other=x" ++ rest
    /\ Regex.match_at (u "--other=x" ++ rest) = Some (u "--other=x", rest)
    /\ (quoted_shape (u "--other=x")
        \/ (Regex.alt_quoted (u "--other=x" ++ rest) = None
            /\ bare_shape (u "--other=x") rest)).
Proof.
  apply (proj2 C7_tokenizer extra (u "--other=x")).
  vm_compute. right. left. reflexivity.
Defined.



Lemma C2_template_listing_bands_witness :
  listInstalledTemplates_params v5_0_100
    (Some {| search := Some (u "web"); language := None |})
    = [u "new"; u "web"; u "--list"]
  /\ listInstalledTemplates_params v7_0_100
       (Some {| search := Some (u "web"); language := None |})
     = [u "new"; u "list"; u "web"].
Proof.
  split.
  - refine (proj1 (C2_template_listing_bands (runtime := runtime 0)
                     (sdk "5.0.100") v5_0_100 (u "web") None _ _) _).
    + vm_compute; reflexivity.
    + discriminate.
    + vm_compute; reflexivity.
  - refine (proj1 (proj2 (proj2
              (C2_template_listing_bands (runtime := runtime 0)
                 (sdk "7.0.100") v7_0_100 (u "web") None _ _))) _).
    + vm_compute; reflexivity.
    + discriminate.
    + vm_compute; reflexivity.
Defined.

(** C3 fails on the spawn mode. With [HOME] set to [/home/dev], the token
    [$HOME/project] reaches the process as it is when the command is
    spawned, whereas both blocking modes dispatch [/home/dev/project]. *)
Theorem C3_spawn_skips_substitution :
  let c := sdk "6.0.100" in
  let token := u "$HOME/project" in
  let sent (st : State) := dispatched (trace st) in
  process_env (Runtime := runtime 0) !! u "HOME" = Some (u "/home/dev")
  /\ sent (snd (logAndSpawn (runtime := runtime 0) c
                  [u "run"; u "--project"; token] (initial ∅)))
     = [[u "run"; u "--project"; u "$HOME/project"]]
  /\ sent (snd (logAndExecute (runtime := runtime 0) c
                  [u "build"; token] (initial ∅)))
     = [[u "build"; u "/home/dev/project"]]
  /\ sent (snd (spawnAndGetOutput (runtime := runtime 0) c
                  [u "new"; u "--list"; token] (initial ∅)))
     = [[u "new"; u "--list"; u "/home/dev/project"]].
Proof. vm_compute. repeat split. Qed.


(** C6 fails as stated: the captured mode dispatches the process and
    writes no log line. *)
Lemma C6_counterexample :
  let c := sdk "7.0.100" in
  let st := snd (spawnAndGetOutput (runtime := runtime 0) c
                   [u "new"; u "list"] (initial ∅)) in
  trace st = [SpawnSync (u "dotnet") [u "new"; u "list"] (u "/work") pipe]
  /\ logged (trace st) = []
  /\ ~ (exists line, In (ConsoleLog line) (trace st)).
Proof.
  vm_compute. repeat split.
  intros [line [E|[]]]. discriminate E.
Qed.

Lemma C9_format_mutates_caller_object_witness :
  exists o',
    heap (snd (format (runtime := runtime 1) (sdk "6.0.100") (u "proj")
                 (Some 0%nat) None store)) !! 0%nat = Some o'
    /\ o' = [].
Proof.
  destruct (C9_format_mutates_caller_object (runtime := runtime 1)
              (sdk "6.0.100") (u "proj") 0%nat style_only None store
              v6_0_100) as (o' & Hl & Ho & _).
  - vm_compute; reflexivity.
  - split; [vm_compute; discriminate|vm_compute; reflexivity].
  - vm_compute; reflexivity.
  - exists o'. split; [exact Hl|]. rewrite Ho. vm_compute. reflexivity.
Defined.

Lemma C10_whitespace_extra_throws_witness :
  build (runtime := runtime 0) (sdk "6.0.100") (u "proj") None
    (Some (u "  ")) (initial ∅)
  = (Thrown (TypeError SpreadOfNull), initial ∅).
Proof.
  refine (proj1 (proj2 (C10_whitespace_extra_throws (runtime := runtime 0)
                         (sdk "6.0.100") (u "  ") (u "proj") (u "tool")
                         None None None None (initial ∅) _ _))).
  - discriminate.
  - vm_compute; reflexivity.
Defined.

End Runs.

(** * Further properties *)

(** ** More on the tokenizer *)

Section TokenizerMore.

Import Regex.

Lemma scan_skip (a r : str) : scan (length a) (a ++ r) = scan O r.
Proof. induction a as [|x a IH]; [reflexivity|exact IH]. Qed.

Lemma scan_cons (c : N) (t : str) :
  scan O (c :: t) =
    match match_at (c :: t) with
    | Some (m, _) => m :: scan (pred (length m)) t
    | None => scan O t
    end.
Proof. reflexivity. Qed.

(** After a match the scan resumes right behind it. *)
Lemma scan_match (s m rest : str) :
  match_at s = Some (m, rest) -> scan O s = m :: scan O rest.
Proof.
  intros E. destruct (match_at_shape _ _ _ E) as (Hs & _).
  pose proof (match_at_nonempty _ _ _ E) as Hm.
  destruct m as [|c m']; [congruence|]. subst s.
  cbn [app] in *. rewrite scan_cons, E. cbn [length pred].
  now rewrite scan_skip.
Qed.

(** Where no match starts there is white space. *)
Lemma match_at_none_space (c : N) (t : str) :
  match_at (c :: t) = None -> is_space c = true.
Proof.
  unfold match_at. destruct (alt_quoted (c :: t)); [discriminate|].
  unfold alt_bare. cbn [span]. unfold is_nonspace.
  destruct (is_space c); [reflexivity|]. cbn [negb].
  destruct (span _ t); discriminate.
Qed.

Lemma match_at_shorter (s m rest : str) :
  match_at s = Some (m, rest) -> (length rest < length s)%nat.
Proof.
  intros E. destruct (match_at_shape _ _ _ E) as (-> & _).
  pose proof (match_at_nonempty _ _ _ E) as Hm.
  destruct m; [congruence|]. rewrite length_app. cbn [length]. lia.
Qed.

(** An induction principle that follows the scan. *)
Lemma scan_ind (P : str -> Prop) :
  P [] ->
  (forall c t, match_at (c :: t) = None -> is_space c = true -> P t ->
               P (c :: t)) ->
  (forall s m rest, match_at s = Some (m, rest) -> s = m ++ rest ->
                    m <> [] -> P rest -> P s) ->
  forall s, P s.
Proof.
  intros Hnil Hnone Hsome s.
  remember (length s) as n eqn:Hn. revert s Hn.
  induction n as [n IH] using lt_wf_ind. intros s Hn.
  destruct s as [|c t]; [exact Hnil|].
  destruct (match_at (c :: t)) as [[m rest]|] eqn:E.
  - apply (Hsome _ m rest E).
    + now destruct (match_at_shape _ _ _ E).
    + now apply match_at_nonempty in E.
    + apply (IH (length rest)); [|reflexivity].
      subst n. now apply match_at_shorter in E.
  - apply Hnone; [exact E|now apply match_at_none_space in E|].
    apply (IH (length t)); [subst n; cbn; lia|reflexivity].
Qed.

(** X3. The tokenizer drops white space only: the units that are not white
    space come out in the tokens, all of them and in their order. *)
Theorem tokens_keep_all_but_space (s : str) :
  List.filter is_nonspace (concat (scan O s)) = List.filter is_nonspace s.
Proof.
  induction s as [|c t Hm Hc IH|s m rest Hm Hs Hne IH] using scan_ind.
  - reflexivity.
  - rewrite scan_cons, Hm, IH. cbn [List.filter]. unfold is_nonspace at 2.
    now rewrite Hc.
  - rewrite (scan_match _ _ _ Hm). cbn [concat].
    subst s. rewrite !List.filter_app. now rewrite IH.
Qed.

(** X4. The match is [null] exactly for the strings that hold nothing but
    white space, the empty string among them. *)
Theorem match_null_iff_whitespace (s : str) :
  match_EXTRA_PARAMS_REGEX s = None <-> forallb is_space s = true.
Proof.
  split; [|apply match_whitespace_null].
  unfold match_EXTRA_PARAMS_REGEX.
  induction s as [|c t Hm Hc IH|s m rest Hm Hs Hne IH] using scan_ind.
  - reflexivity.
  - rewrite scan_cons, Hm. intros E. cbn [forallb]. rewrite Hc. now apply IH.
  - rewrite (scan_match _ _ _ Hm). discriminate.
Qed.

Lemma quoted_shape_has_quote (m : str) :
  quoted_shape m -> forallb (fun c => negb (c =? dquote)) m = false.
Proof.
  intros (p & c & q & -> & _). rewrite forallb_app. cbn [app forallb].
  change (dquote =? dquote) with true. cbn [negb andb].
  apply andb_false_r.
Qed.

Lemma no_quote_alt_bare (s : str) :
  forallb (fun c => negb (c =? dquote)) s = true ->
  match_at s = alt_bare s.
Proof.
  intros Hs. unfold match_at.
  destruct (alt_quoted s) as [[m rest]|] eqn:E; [|reflexivity].
  destruct (alt_quoted_shape _ _ _ E) as (-> & Hq).
  rewrite forallb_app in Hs. apply andb_true_iff in Hs as [Hm _].
  rewrite (quoted_shape_has_quote m Hq) in Hm. discriminate.
Qed.

Lemma span_cons (p : N -> bool) (c : N) (t : str) :
  span p (c :: t) =
    if p c then let '(a, b) := span p t in (c :: a, b) else ([], c :: t).
Proof. reflexivity. Qed.

Lemma words_span (t : str) (c : N) (m rest : str) :
  is_space c = false ->
  span is_nonspace (c :: t) = (m, rest) ->
  words (c :: t) = m :: words rest.
Proof.
  revert c m rest. induction t as [|d t IH]; intros c m rest Hc E.
  - cbn in E. unfold is_nonspace in E. rewrite Hc in E. cbn in E.
    inversion E; subst. cbn [words]. now rewrite Hc.
  - rewrite span_cons in E. unfold is_nonspace in E at 1. rewrite Hc in E.
    cbn [negb] in E.
    change (words (c :: d :: t))
      with (if is_space c then words (d :: t)
            else if is_space d then [c] :: words (d :: t)
                 else match words (d :: t) with
                      | w :: ws => (c :: w) :: ws
                      | [] => [[c]]
                      end).
    rewrite Hc. destruct (is_space d) eqn:Hd.
    + rewrite span_cons in E. unfold is_nonspace in E. rewrite Hd in E.
      cbn [negb] in E. now inversion E.
    + destruct (span is_nonspace (d :: t)) as [m' rest'] eqn:E'.
      injection E as <- <-. now rewrite (IH d m' rest' Hd E').
Qed.

(** X5. On a string without double quote the tokenizer is the splitting at
    white space. *)
Theorem tokens_without_quote_are_words (s : str) :
  forallb (fun c => negb (c =? dquote)) s = true ->
  scan O s = words s.
Proof.
  induction s as [|c t Hm Hc IH|s m rest Hm Hs Hne IH] using scan_ind;
    intros Hq.
  - reflexivity.
  - rewrite scan_cons, Hm. cbn [words]. rewrite Hc. apply IH.
    cbn [forallb] in Hq. now apply andb_true_iff in Hq as [_ Hq].
  - rewrite (scan_match _ _ _ Hm).
    rewrite (no_quote_alt_bare s Hq) in Hm. unfold alt_bare in Hm.
    destruct (span is_nonspace s) as [a b] eqn:E.
    destruct a as [|x a]; [discriminate|]. inversion Hm; subst m rest.
    destruct s as [|c t]; [discriminate|].
    assert (Hc : is_space c = false).
    { rewrite span_cons in E. unfold is_nonspace in E at 1.
      destruct (is_space c); [discriminate|reflexivity]. }
    rewrite (words_span t c _ _ Hc E). f_equal. apply IH.
    rewrite Hs, forallb_app in Hq. now apply andb_true_iff in Hq as [_ Hq].
Qed.

End TokenizerMore.

(** ** What every call adds to the trace *)

Section Effects.

Context {utils : Utils} {keymaps : KeyMaps} {runtime : Runtime}.

Variable P : list Event -> Prop.
Variable c : DotNetClient.

Hypothesis P_nil : P [].
Hypothesis P_app : forall t1 t2, P t1 -> P t2 -> P (t1 ++ t2).
Hypothesis P_execute : forall args,
  P [ConsoleLog (log_line c args);
     SpawnSync (command (cliCommand c)) args (working_directory c) inherit].
Hypothesis P_capture : forall args,
  P [SpawnSync (command (cliCommand c)) args (working_directory c) pipe].
Hypothesis P_spawn : forall args,
  P [ConsoleLog (log_line c args);
     Spawn (command (cliCommand c)) args (working_directory c) inherit].

Lemma appends_silent {A} (m : M A) :
  (forall st, trace (snd (m st)) = trace st) -> appends P m.
Proof.
  intros Hm st. exists []. rewrite Hm, app_nil_r. auto.
Qed.

Lemma appends_ret {A} (a : A) : appends P (ret a).
Proof. now apply appends_silent. Qed.

Lemma appends_throw {A} (e : Exn) : appends P (throw (A := A) e).
Proof. now apply appends_silent. Qed.

Lemma appends_deref (l : loc) : appends P (deref l).
Proof. now apply appends_silent. Qed.

Lemma appends_update (l : loc) (f : Obj.t -> Obj.t) : appends P (update l f).
Proof. now apply appends_silent. Qed.

Lemma appends_bind {A B} (m : M A) (k : A -> M B) :
  appends P m -> (forall a, appends P (k a)) -> appends P (bind m k).
Proof.
  intros Hm Hk st. destruct (Hm st) as (t1 & E1 & P1). unfold bind.
  destruct (m st) as [[a|e] st1]; cbn [snd] in *.
  - destruct (Hk a st1) as (t2 & E2 & P2). exists (t1 ++ t2).
    rewrite E2, E1, app_assoc. auto.
  - exists t1. auto.
Qed.

Lemma appends_logAndExecute (params : list str) :
  appends P (logAndExecute c params).
Proof.
  intros st. rewrite logAndExecute_run. cbn zeta. cbn [snd after trace].
  eexists. split; [reflexivity|apply P_execute].
Qed.

Lemma appends_spawnAndGetOutput (params : list str) :
  appends P (spawnAndGetOutput c params).
Proof.
  intros st. rewrite spawnAndGetOutput_run. cbn zeta. cbn [snd after trace].
  eexists. split; [reflexivity|apply P_capture].
Qed.

Lemma appends_logAndSpawn (params : list str) :
  appends P (logAndSpawn c params).
Proof.
  intros st. rewrite logAndSpawn_run. cbn [snd after trace].
  eexists. split; [reflexivity|apply P_spawn].
Qed.

Lemma appends_push_extra (params : list str) (extraParameters : option str) :
  appends P (push_extra params extraParameters).
Proof.
  apply appends_silent. intros st. now rewrite push_extra_tokens.
Qed.

Ltac appends_step :=
  first
    [ apply appends_ret | apply appends_throw | apply appends_deref
    | apply appends_update | apply appends_logAndExecute
    | apply appends_spawnAndGetOutput | apply appends_logAndSpawn
    | apply appends_push_extra
    | apply appends_bind; [|intros ?]
    | match goal with
      | |- appends _ (if ?b then _ else _) => destruct b
      | |- appends _ (match ?x with _ => _ end) => destruct x
      end ].

(** Whatever the call and however it ends, the trace it leaves is the trace
    it found followed by events that satisfy [P]. *)
Lemma call_appends (call : Call) (st : State) :
  exists t, trace (state_after c call st) = trace st ++ t /\ P t.
Proof.
  assert (H : forall A (m : M A), appends P m ->
                exists t, trace (final m st) = trace st ++ t /\ P t)
    by (intros A m Hm; apply Hm).
  destruct call; cbn [state_after]; apply H; clear H.
  all: unfold new, listInstalledTemplates, build, run, test,
         addPackageReference, addProjectReference, publish, installTool,
         restorePackages, restoreTools, format, runTool,
         addProjectToSolution, printSdkVersion, build_params, test_params,
         publish_params, runTool_params, semver_parse, optional_prop, prop,
         delete_prop, spread.
  all: repeat appends_step.
Qed.

End Effects.

(** ** Two invariants of the trace *)

Section TraceInvariants.

Context {utils : Utils} {keymaps : KeyMaps} {runtime : Runtime}.

Lemma well_logged_app (t1 t2 : list Event) (p : option str) :
  well_logged p t1 = true ->
  (forall q, well_logged q t2 = true) ->
  well_logged p (t1 ++ t2) = true.
Proof.
  intros H1 H2. revert p H1.
  induction t1 as [|e t1 IH]; intros p H1; cbn [app]; [apply H2|].
  destruct e as [l|file args dir [|]|file args dir [|]]; cbn [well_logged] in *.
  - now apply IH.
  - apply andb_true_iff in H1 as [Hp H1]. rewrite Hp. now apply IH.
  - now apply IH.
  - apply andb_true_iff in H1 as [Hp H1]. rewrite Hp. now apply IH.
  - now apply IH.
Qed.

Lemma eqb_refl (a : str) : eqb a a = true.
Proof. unfold eqb. now apply bool_decide_eq_true. Qed.

(** X6. Announced dispatches are an invariant of the client: if, in the
    trace a call finds, every process started with inherited streams comes
    right after the log line that shows its command, the same holds of the
    trace the call leaves, for every call and however it ends. *)
Theorem calls_keep_dispatches_announced (c : DotNetClient) (call : Call)
    (st : State) :
  well_logged None (trace st) = true ->
  well_logged None (trace (state_after c call st)) = true.
Proof.
  intros Hst.
  destruct (call_appends (fun t => forall q, well_logged q t = true) c)
    with (call := call) (st := st) as (t & -> & Ht).
  - reflexivity.
  - intros t1 t2 H1 H2 q. apply well_logged_app; auto.
  - intros args q. cbn [well_logged]. unfold log_line, command_line.
    now rewrite eqb_refl.
  - reflexivity.
  - intros args q. cbn [well_logged]. unfold log_line, command_line.
    now rewrite eqb_refl.
  - now apply well_logged_app.
Qed.

(** X7. The client runs nothing but its own executable, and nowhere but in
    its working directory: if this holds of the trace a call finds, it holds
    of the trace the call leaves. *)
Theorem calls_run_own_executable (c : DotNetClient) (call : Call)
    (st : State) :
  Forall (own_process c) (trace st) ->
  Forall (own_process c) (trace (state_after c call st)).
Proof.
  intros Hst.
  destruct (call_appends (Forall (own_process c)) c)
    with (call := call) (st := st) as (t & -> & Ht).
  - constructor.
  - intros t1 t2 H1 H2. apply Forall_app. auto.
  - intros args. repeat constructor.
  - intros args. repeat constructor.
  - intros args. repeat constructor.
  - apply Forall_app. auto.
Qed.

End TraceInvariants.

(** ** More on the format operation *)

Section FormatMore.

Context {utils : Utils} {runtime : Runtime}.

Lemma get_delete_eq (k : str) (o : Obj.t) :
  Obj.get k (Obj.delete k o) = Obj.VUndefined.
Proof.
  induction o as [|[k' v] o IH]; [reflexivity|].
  unfold Obj.delete in *. cbn [List.filter fst].
  destruct (eqb k' k) eqn:E; cbn [negb]; [exact IH|].
  cbn [Obj.get]. now rewrite E.
Qed.



Lemma flags_gone (o : Obj.t) :
  Obj.get fixWhitespace (without_fix_flags o) = Obj.VUndefined
  /\ Obj.get fixStyle (without_fix_flags o) = Obj.VUndefined
  /\ Obj.get fixAnalyzers (without_fix_flags o) = Obj.VUndefined.
Proof.
  unfold without_fix_flags. repeat split.
  - rewrite !get_delete_ne by discriminate. apply get_delete_eq.
  - rewrite get_delete_ne by discriminate. apply get_delete_eq.
  - apply get_delete_eq.
Qed.

(** When [format] does not split it is one blocking call. *)
Lemma format_unified_path (c : DotNetClient) (project : str)
    (parameters : option loc) (forceToolUsage : option bool) (st : State)
    (version : Semver.SemVer) :
  Semver.parse (getSdkVersion c) = Some version ->
  (forall l o, parameters = Some l -> heap st !! l = Some o ->
               ~ split_path version o) ->
  (forall l, parameters = Some l -> is_Some (heap st !! l)) ->
  format c project parameters forceToolUsage st =
    logAndExecute c
      (format_base forceToolUsage ++ [project]
         ++ mapped_options (parameters ≫= fun l => heap st !! l)
              formatKeyMap) st.
Proof.
  intros Hv Hno Hin. unfold format, semver_parse. rewrite Hv.
  unfold bind at 1. unfold ret at 1.
  fold (format_base forceToolUsage).
  destruct parameters as [l|].
  - destruct (Hin l eq_refl) as [o Ho]. specialize (Hno l o eq_refl Ho).
    unfold optional_prop, deref, bind, ret. cbn [heap trace].
    rewrite Ho. cbn [default from_option id mbind option_bind].
    assert (E : (6 <=? Semver.major version)
                && (Obj.defined (Obj.get fixWhitespace o)
                    || Obj.defined (Obj.get fixStyle o)
                    || Obj.defined (Obj.get fixAnalyzers o)) = false).
    { apply not_true_is_false. intros E. apply Hno.
      apply andb_true_iff in E as [E1 E2]. split; [|exact E2].
      now apply N.leb_le. }
    rewrite E. rewrite Ho. cbn [default from_option id mapped_options].
    rewrite <- app_assoc. reflexivity.
  - unfold optional_prop, bind, ret. cbn [Obj.defined orb].
    rewrite andb_false_r. cbn [mbind option_bind mapped_options app].
    reflexivity.
Qed.

Lemma format_unified_effect (c : DotNetClient) (project : str) (l : loc)
    (o : Obj.t) (forceToolUsage : option bool) (st : State)
    (version : Semver.SemVer) :
  Semver.parse (getSdkVersion c) = Some version ->
  heap st !! l = Some o ->
  ~ split_path version o ->
  let st' := snd (format c project (Some l) forceToolUsage st) in
  heap st' = heap st
  /\ dispatched (trace st') =
       dispatched (trace st)
         ++ [format_unified forceToolUsage project (Some o)].
Proof.
  intros Hv Ho Hno. cbn zeta.
  rewrite (format_unified_path c project (Some l) forceToolUsage st version Hv).
  - rewrite logAndExecute_run. cbn zeta. cbn [snd after heap trace].
    rewrite dispatched_app. cbn [mbind option_bind]. rewrite Ho.
    split; reflexivity.
  - intros l' o' [= <-] Ho'. rewrite Ho in Ho'. now injection Ho' as <-.
  - intros l' [= <-]. now exists o.
Qed.

(** X8. Below SDK major version 6, or when none of the three flags is
    defined, [format] runs the single command [format <project>] followed by
    the options renamed through the key table, and the object of the caller
    is left as it was. Without a parameter object the command is
    [format <project>] alone. *)
Theorem format_unified_call (c : DotNetClient) (project : str) (l : loc)
    (o : Obj.t) (forceToolUsage : option bool) (st : State)
    (version : Semver.SemVer) :
  Semver.parse (getSdkVersion c) = Some version ->
  heap st !! l = Some o ->
  ~ split_path version o ->
  let st' := snd (format c project (Some l) forceToolUsage st) in
  let bare := snd (format c project None forceToolUsage st) in
  heap st' = heap st
  /\ dispatched (trace st') =
       dispatched (trace st)
         ++ [format_unified forceToolUsage project (Some o)]
  /\ heap bare = heap st
  /\ dispatched (trace bare) =
       dispatched (trace st) ++ [format_unified forceToolUsage project None].
Proof.
  intros Hv Ho Hno. cbn zeta.
  destruct (format_unified_effect c project l o forceToolUsage st version
              Hv Ho Hno) as (H1 & H2).
  repeat split; try assumption.
  all: rewrite (format_unified_path c project None forceToolUsage st version
                  Hv); try discriminate.
  all: rewrite logAndExecute_run; cbn zeta; cbn [snd after heap trace].
  - reflexivity.
  - now rewrite dispatched_app.
Qed.

(** X9. A version string that does not parse makes [format] and
    [listInstalledTemplates] throw at the version test: nothing is logged,
    no process is started and the object of the caller keeps its flags. *)
Theorem invalid_version_throws_first (c : DotNetClient) (project : str)
    (parameters : option loc) (forceToolUsage : option bool)
    (opts : option ListOptions) (st : State) :
  Semver.parse (getSdkVersion c) = None ->
  format c project parameters forceToolUsage st
    = (Thrown (TypeError InvalidVersion), st)
  /\ listInstalledTemplates c opts st
     = (Thrown (TypeError InvalidVersion), st).
Proof.
  intros Hv. unfold format, listInstalledTemplates, semver_parse.
  rewrite Hv. split; reflexivity.
Qed.

(** X10. When the children fail, [format] on the split path stops at its
    first sub-invocation: that one is dispatched, the call throws the error
    of the exit status, and the later sub-invocations never start. The flags
    are gone from the object of the caller all the same. With no flag left
    to run, nothing is dispatched and the call returns. *)
Theorem format_stops_at_first_failure (c : DotNetClient) (project : str)
    (l : loc) (o : Obj.t) (forceToolUsage : option bool) (st : State)
    (version : Semver.SemVer) :
  Semver.parse (getSdkVersion c) = Some version ->
  split_path version o ->
  heap st !! l = Some o ->
  (forall t, status (child_outcome t) <> Some 0%Z) ->
  let result := format c project (Some l) forceToolUsage st in
  dispatched (trace (snd result)) =
    dispatched (trace st) ++ take 1 (format_plan forceToolUsage project o)
  /\ heap (snd result) !! l = Some (without_fix_flags o)
  /\ (format_plan forceToolUsage project o = [] -> fst result = Returned tt)
  /\ (format_plan forceToolUsage project o <> [] ->
      exists code, code <> Some 0%Z
        /\ fst result =
             Thrown (Error (u "dotnet execution returned status code "
                              ++ show_status code))).
Proof.
  intros Hv Hs Ho Hfail. cbn zeta.
  rewrite (format_split_path c project l o forceToolUsage st version Hv Hs Ho).
  assert (Hex : forall t, exited_normally (child_outcome t) = false).
  { intros t. unfold exited_normally. apply bool_decide_eq_false, Hfail. }
  unfold format_plan, bind, ret.
  destruct (Obj.not_false (Obj.get fixWhitespace o)),
    (Obj.not_false (Obj.get fixStyle o)),
    (Obj.not_false (Obj.get fixAnalyzers o)).
  all: rewrite ?logAndExecute_run; cbn zeta; rewrite ?Hex.
  all: cbn [fst snd heap trace after flags_deleted app take firstn].
  all: rewrite ?dispatched_app, ?app_nil_r;
    cbn [dispatched omap list_omap app].
  all: fold (format_sub forceToolUsage).
  all: rewrite lookup_insert_eq.
  all: repeat split; try reflexivity; try congruence.
  all: intros _; eexists; split; [apply Hfail|reflexivity].
Qed.

End FormatMore.

Section FormatAgain.

Context {utils : Utils} {runtime : Runtime}.

Lemma format_split_returns (c : DotNetClient) (project : str) (l : loc)
    (o : Obj.t) (forceToolUsage : option bool) (st : State)
    (version : Semver.SemVer) :
  Semver.parse (getSdkVersion c) = Some version ->
  split_path version o ->
  heap st !! l = Some o ->
  (forall t, status (child_outcome t) = Some 0%Z) ->
  fst (format c project (Some l) forceToolUsage st) = Returned tt.
Proof.
  intros Hv Hs Ho Hok.
  rewrite (format_split_path c project l o forceToolUsage st version Hv Hs Ho).
  assert (Hex : forall t, exited_normally (child_outcome t) = true).
  { intros t. unfold exited_normally. apply bool_decide_eq_true, Hok. }
  unfold bind, ret.
  destruct (Obj.not_false (Obj.get fixWhitespace o)),
    (Obj.not_false (Obj.get fixStyle o)),
    (Obj.not_false (Obj.get fixAnalyzers o)).
  all: rewrite ?logAndExecute_run; cbn zeta; rewrite ?Hex; reflexivity.
Qed.

Lemma not_split_without_flags (version : Semver.SemVer) (o : Obj.t) :
  ~ split_path version (without_fix_flags o).
Proof.
  intros [_ H]. destruct (flags_gone o) as (A & B & C).
  rewrite A, B, C in H. discriminate.
Qed.

(** X11. [format] is not idempotent on the object it is given. A first call
    on the split path, all children ending well, returns and leaves the
    object without the three flags; a second call with the same object then
    does not split: it runs the single [format <project>] command with what
    is left of the options. *)
Theorem format_twice (c : DotNetClient) (project : str) (l : loc)
    (o : Obj.t) (forceToolUsage : option bool) (st : State)
    (version : Semver.SemVer) :
  Semver.parse (getSdkVersion c) = Some version ->
  split_path version o ->
  heap st !! l = Some o ->
  (forall t, status (child_outcome t) = Some 0%Z) ->
  let first := format c project (Some l) forceToolUsage st in
  let second := format c project (Some l) forceToolUsage (snd first) in
  fst first = Returned tt
  /\ fst second = Returned tt
  /\ heap (snd second) = heap (snd first)
  /\ dispatched (trace (snd second)) =
       dispatched (trace st)
         ++ format_plan forceToolUsage project o
         ++ [format_unified forceToolUsage project
               (Some (without_fix_flags o))].
Proof.
  intros Hv Hs Ho Hok. cbn zeta.
  destruct (format_split_effect c project l o forceToolUsage st version
              Hv Hs Ho) as (Hheap & _ & Hall).
  cbn zeta in Hheap, Hall. specialize (Hall Hok).
  assert (Ho1 : heap (snd (format c project (Some l) forceToolUsage st)) !! l
                = Some (without_fix_flags o))
    by (rewrite Hheap; apply lookup_insert_eq).
  split; [now apply (format_split_returns c project l o _ st version)|].
  pose proof (not_split_without_flags version o) as Hno.
  destruct (format_unified_effect c project l (without_fix_flags o)
              forceToolUsage _ version Hv Ho1 Hno) as (H2 & D2).
  cbn zeta in H2, D2. repeat split; [|exact H2|].
  - rewrite (format_unified_path c project (Some l) forceToolUsage _ version
               Hv).
    + rewrite logAndExecute_run. cbn zeta. unfold exited_normally.
      rewrite Hok. reflexivity.
    + intros l' o' [= <-] Ho'. rewrite Ho1 in Ho'. now injection Ho' as <-.
    + intros l' [= <-]. eauto.
  - rewrite D2, Hall. now rewrite <- app_assoc.
Qed.


End FormatAgain.

(** ** More on the other operations *)

Section OperationsMore.

Context {utils : Utils} {keymaps : KeyMaps} {runtime : Runtime}.

(** X13. Without a search term, missing or empty, the arguments of
    [listInstalledTemplates] are [new] and the list token alone, [list] from
    [7.0.100] on and [--list] below, whatever the side of [6.0.100]; an
    empty language is left out like a missing one, and a language comes
    last. On status zero the call returns what the parser makes of the
    captured output. *)
Theorem listing_without_search_term (c : DotNetClient)
    (version : Semver.SemVer) (opts : option ListOptions) (st : State) :
  Semver.parse (getSdkVersion c) = Some version ->
  truthy (opts ≫= search) = false ->
  let token :=
    if Semver.gte version Semver.v7_0_100 then u "list" else u "--list" in
  let lang := opts ≫= language in
  let params :=
    [u "new"; token]
      ++ (if truthy lang then [u "--language"; the lang] else []) in
  let res :=
    child_outcome
      (trace st ++ [SpawnSync (command (cliCommand c))
                      (List.map (Regex.replace_env process_env) params)
                      (working_directory c) pipe]) in
  listInstalledTemplates_params version opts = params
  /\ (status res = Some 0%Z ->
      fst (listInstalledTemplates c opts st)
        = Returned (parseDotnetNewListOutput (stdout res))).
Proof.
  intros Hv Hs. cbn zeta.
  assert (E : listInstalledTemplates_params version opts =
              [u "new";
               if Semver.gte version Semver.v7_0_100
               then u "list" else u "--list"]
                ++ (if truthy (opts ≫= language)
                    then [u "--language"; the (opts ≫= language)] else [])).
  { unfold listInstalledTemplates_params. rewrite Hs, !andb_false_r.
    destruct (Semver.gte version Semver.v7_0_100),
      (truthy (opts ≫= language)); reflexivity. }
  split; [exact E|].
  intros Hok. unfold listInstalledTemplates, semver_parse, bind, ret.
  rewrite Hv, spawnAndGetOutput_run. cbn zeta. rewrite E.
  unfold exited_normally, after. cbn [trace]. now rewrite Hok.
Qed.


Lemma span_snoc (p : N -> bool) (s : str) (c : N) :
  p c = false ->
  span p (s ++ [c]) = (fst (span p s), snd (span p s) ++ [c]).
Proof.
  intros Hc. induction s as [|a s IH]; cbn [app span].
  - now rewrite Hc.
  - destruct (p a); [|reflexivity].
    rewrite IH. now destruct (span p s).
Qed.

Lemma replace_env_snoc (env : gmap str str) (s : str) (c : N) :
  is_word c = false ->
  Regex.replace_env env (s ++ [c]) = Regex.replace_env env s ++ [c].
Proof.
  intros Hc. induction s as [|a s IH]; cbn [app Regex.replace_env].
  - destruct (c =? dollar); cbn [span]; reflexivity.
  - destruct (a =? dollar); [|now rewrite IH].
    rewrite (span_snoc is_word s c Hc).
    destruct (span is_word s) as [[|x name] rest]; cbn [fst snd].
    + now rewrite IH.
    + now rewrite <- app_assoc.
Qed.

(** X15. The quotes that [publish] puts around the project path reach the
    process: the second argument dispatched is the path between two double
    quotes, with the substitution of the environment done inside them. *)
Theorem publish_dispatches_quoted_project (c : DotNetClient) (project : str)
    (parameters : option Obj.t) (publishProfile extraParameters : option str)
    (tokens : list str) (st : State) :
  extra_tokens extraParameters = Returned tokens ->
  dispatched (trace (snd (publish c project parameters publishProfile
                            extraParameters st)))
  = dispatched (trace st)
      ++ [u "publish"
          :: ([dquote] ++ Regex.replace_env process_env project ++ [dquote])
          :: List.map (Regex.replace_env process_env)
               (mapped_options parameters publishKeyMap
                  ++ (if truthy publishProfile
                      then [u "-p:PublishProfile=" ++ the publishProfile]
                      else [])
                  ++ tokens)].
Proof.
  intros Hx. unfold publish, publish_params, bind.
  rewrite push_extra_tokens, Hx, push_options_app. cbn [outcome_map].
  rewrite logAndExecute_run. cbn zeta. cbn [snd after trace].
  rewrite dispatched_app. cbn [dispatched omap list_omap].
  do 2 f_equal.
  destruct (truthy publishProfile);
    rewrite <- !app_assoc; cbn [app List.map]; f_equal; f_equal.
  all: change ([dquote] ++ project ++ [dquote])
         with (dquote :: (project ++ [dquote])).
  all: cbn [Regex.replace_env];
    change (dquote =? dollar) with false; cbn iota.
  all: now rewrite replace_env_snoc.
Qed.

End OperationsMore.

Section FormatFrame.

Context {utils : Utils} {runtime : Runtime}.

Ltac format_cases :=
  unfold format, semver_parse, optional_prop, prop, delete_prop, spread,
    deref, update, bind, ret, throw;
  repeat first
    [ progress cbn [heap trace fst snd after]
    | rewrite logAndExecute_run; cbn zeta
    | match goal with
      | |- context [match Semver.parse ?v with _ => _ end] =>
          destruct (Semver.parse v)
      | |- context [if ?b then _ else _] => destruct b
      end ].

Lemma format_bounds (c : DotNetClient) (project : str)
    (parameters : option loc) (forceToolUsage : option bool) (st : State) :
  let st' := snd (format c project parameters forceToolUsage st) in
  (forall l, parameters <> Some l -> heap st' !! l = heap st !! l)
  /\ (forall l, parameters = Some l ->
        heap st' !! l = heap st !! l
        \/ heap st' !! l = without_fix_flags <$> heap st !! l)
  /\ exists sent,
       dispatched (trace st') = dispatched (trace st) ++ sent
       /\ (length sent <= 3)%nat.
Proof.
  cbn zeta. destruct parameters as [l|]; format_cases.
  all: repeat split.
  all: try (intros l' Hl'; rewrite ?lookup_alter_ne by congruence;
            reflexivity).
  all: try (intros l' [= <-]; rewrite ?lookup_alter_eq;
            first [ left; reflexivity
                  | right; unfold without_fix_flags;
                    now destruct (heap st !! l) ]).
  all: try discriminate.
  all: rewrite ?dispatched_app; cbn [dispatched omap list_omap];
    rewrite <- ?app_assoc; cbn [app];
    eexists; (split; [try reflexivity; now rewrite app_nil_r|cbn; lia]).
Qed.

(** X16. Whatever the version, the store and the children, [format] touches no
    object but the one it is given, and that one it leaves as it was or
    without the three flags. *)
Theorem format_frame (c : DotNetClient) (project : str)
    (parameters : option loc) (forceToolUsage : option bool) (st : State) :
  let st' := snd (format c project parameters forceToolUsage st) in
  (forall l, parameters <> Some l -> heap st' !! l = heap st !! l)
  /\ (forall l, parameters = Some l ->
        heap st' !! l = heap st !! l
        \/ heap st' !! l = without_fix_flags <$> heap st !! l).
Proof.
  cbn zeta.
  destruct (format_bounds c project parameters forceToolUsage st)
    as (H1 & H2 & _).
  split; assumption.
Qed.

End FormatFrame.

Section Counting.

Context {utils : Utils} {keymaps : KeyMaps} {runtime : Runtime}.

(** X17. No call starts more than one process, except [format], which starts
    at most three; this holds whatever the arguments and however the call
    ends. *)
Theorem calls_start_few_processes (c : DotNetClient) (call : Call)
    (st : State) :
  exists sent,
    dispatched (trace (state_after c call st)) = dispatched (trace st) ++ sent
    /\ (length sent <=
          match call with CallFormat _ _ _ => 3 | _ => 1 end)%nat.
Proof.
  destruct call; cbn [state_after]; unfold final.
  12: { destruct (format_bounds c project parameters forceToolUsage st)
          as (_ & _ & H). exact H. }
  all: unfold new, listInstalledTemplates, build, run, test,
         addPackageReference, addProjectReference, publish, installTool,
         restorePackages, restoreTools, runTool, addProjectToSolution,
         printSdkVersion, build_params, test_params, publish_params,
         runTool_params, semver_parse, bind, ret, throw.
  all: rewrite ?push_extra_tokens.
  all: repeat first
         [ progress cbn [outcome_map fst snd after trace]
         | rewrite logAndExecute_run; cbn zeta
         | rewrite spawnAndGetOutput_run; cbn zeta
         | rewrite logAndSpawn_run
         | match goal with
           | |- context [match Semver.parse ?v with _ => _ end] =>
               destruct (Semver.parse v)
           | |- context [extra_tokens ?e] => destruct (extra_tokens e)
           | |- context [if ?b then _ else _] => destruct b
           end ].
  all: rewrite ?dispatched_app; cbn [dispatched omap list_omap];
    eexists; (split; [try reflexivity; now rewrite app_nil_r|cbn; lia]).
Qed.

End Counting.

Section Propagation.

Context {utils : Utils} {keymaps : KeyMaps} {runtime : Runtime}.

Lemma extra_tokens_cases (extraParameters : option str) :
  (exists tokens, extra_tokens extraParameters = Returned tokens)
  \/ extra_tokens extraParameters = Thrown (TypeError SpreadOfNull).
Proof.
  unfold extra_tokens. destruct (truthy extraParameters); [|eauto].
  destruct (Regex.match_EXTRA_PARAMS_REGEX _); eauto.
Qed.

Ltac run_call :=
  unfold ending, new, listInstalledTemplates, build, run, test,
    addPackageReference, addProjectReference, publish, installTool,
    restorePackages, restoreTools, runTool, addProjectToSolution,
    printSdkVersion, build_params, test_params, publish_params,
    runTool_params, semver_parse, bind, ret, throw;
  rewrite ?push_extra_tokens;
  repeat first
    [ progress cbn [outcome_map fst snd after trace negb]
    | rewrite logAndExecute_run; cbn zeta
    | rewrite spawnAndGetOutput_run; cbn zeta
    | rewrite logAndSpawn_run
    | match goal with
      | |- context [match Semver.parse ?v with _ => _ end] =>
          destruct (Semver.parse v)
      | |- context [extra_tokens ?e] =>
          let E := fresh "E" in
          destruct (extra_tokens_cases e) as [[? E]|E]; rewrite E
      | H : exited_normally _ = _ |- _ => rewrite H
      | H : forall t, exited_normally (child_outcome t) = _ |- _ => rewrite H
      | |- context [if ?b then _ else _] => destruct b
      end ].

(** X18. A failure of the process is never swallowed by a call that waits for
    it: when the children end with a status other than zero, every call but
    [run], [test] in watch mode and [format] ends with an exception. *)
Theorem failures_propagate (c : DotNetClient) (call : Call) (st : State) :
  (forall t, status (child_outcome t) <> Some 0%Z) ->
  waits_for_one call = true ->
  exists e, call_outcome c call st = Thrown e.
Proof.
  intros Hfail Hcall.
  assert (Hex : forall t, exited_normally (child_outcome t) = false).
  { intros t. unfold exited_normally. apply bool_decide_eq_false, Hfail. }
  destruct call; try discriminate Hcall; cbn [call_outcome waits_for_one] in *.
  all: try (apply negb_true_iff in Hcall; rewrite Hcall).
  all: run_call; try discriminate Hcall; eauto.
Qed.

(** X19. When the children end with status zero, a call returns, or throws a
    [TypeError] before it starts any process; it never throws the error of
    an exit status. *)
Theorem no_error_without_failure (c : DotNetClient) (call : Call)
    (st : State) :
  (forall t, status (child_outcome t) = Some 0%Z) ->
  call_outcome c call st = Returned tt
  \/ exists cause,
       call_outcome c call st = Thrown (TypeError cause)
       /\ trace (state_after c call st) = trace st.
Proof.
  intros Hok.
  assert (Hex : forall t, exited_normally (child_outcome t) = true).
  { intros t. unfold exited_normally. apply bool_decide_eq_true, Hok. }
  destruct call; cbn [call_outcome state_after]; unfold final.
  12: { unfold ending, format, semver_parse, optional_prop, prop, delete_prop,
          spread, deref, update, bind, ret, throw.
        destruct parameters as [l|].
        all: repeat first
               [ progress cbn [outcome_map fst snd after trace heap]
               | rewrite logAndExecute_run; cbn zeta; rewrite Hex
               | match goal with
                 | |- context [match Semver.parse ?v with _ => _ end] =>
                     destruct (Semver.parse v)
                 | |- context [if ?b then _ else _] => destruct b
                 end ].
        all: first [ left; reflexivity | right; eexists; split; reflexivity ]. }
  all: run_call.
  all: first [ left; reflexivity | right; eexists; split; reflexivity ].
Qed.

End Propagation.

(** ** Concrete runs of the further properties *)

Section RunsMore.

Import Sample SampleMore.

#[local] Existing Instance utils.
#[local] Existing Instance keymaps.

Example words_example :
  words (u "  -c Release" ++ [9] ++ u "--no-build ")
  = [u "-c"; u "Release"; u "--no-build"].
Proof. vm_compute. reflexivity. Qed.

Lemma replace_env_no_match_witness :
  Regex.replace_env env (u "--price=5$ $") = u "--price=5$ $".
Proof.
  apply (replace_env_no_match env (u "--price=5$ $")).
  vm_compute. reflexivity.
Defined.


Lemma tokens_without_quote_are_words_witness :
  Regex.scan 0 (u "-c Release  --no-build")
  = words (u "-c Release  --no-build").
Proof.
  apply (tokens_without_quote_are_words (u "-c Release  --no-build")).
  vm_compute. reflexivity.
Defined.

Lemma calls_keep_dispatches_announced_witness :
  well_logged None
    (trace (state_after (runtime := runtime 1) (sdk "6.0.100")
              (CallFormat (u "proj") (Some 0%nat) None) store)) = true.
Proof.
  apply (calls_keep_dispatches_announced (runtime := runtime 1)
           (sdk "6.0.100") (CallFormat (u "proj") (Some 0%nat) None) store).
  reflexivity.
Defined.

Lemma calls_run_own_executable_witness :
  Forall (own_process (runtime := runtime 0) (sdk "6.0.100"))
    (trace (state_after (runtime := runtime 0) (sdk "6.0.100")
              (CallListInstalledTemplates None) (initial ∅))).
Proof.
  apply (calls_run_own_executable (runtime := runtime 0) (sdk "6.0.100")
           (CallListInstalledTemplates None) (initial ∅)).
  constructor.
Defined.

Lemma format_unified_call_witness :
  dispatched (trace (snd (format (runtime := runtime 0) (sdk "5.0.100")
                            (u "proj") (Some 0%nat) None store)))
  = dispatched (trace store)
      ++ [format_unified (runtime := runtime 0) None (u "proj")
            (Some style_only)].
Proof.
  refine (proj1 (proj2 (format_unified_call (runtime := runtime 0)
                          (sdk "5.0.100") (u "proj") 0%nat style_only None
                          store v5_0_100 _ _ _))).
  - vm_compute; reflexivity.
  - vm_compute; reflexivity.
  - intros [Hmajor _]. vm_compute in Hmajor. apply Hmajor. reflexivity.
Defined.

Lemma invalid_version_throws_first_witness :
  format (runtime := runtime 0) (sdk "six") (u "proj") (Some 0%nat) None
    store
  = (Thrown (TypeError InvalidVersion), store).
Proof.
  refine (proj1 (invalid_version_throws_first (runtime := runtime 0)
                   (sdk "six") (u "proj") (Some 0%nat) None None store _)).
  vm_compute; reflexivity.
Defined.

Lemma format_stops_at_first_failure_witness :
  dispatched (trace (snd (format (runtime := runtime 1) (sdk "6.0.100")
                            (u "proj") (Some 0%nat) None store)))
  = dispatched (trace store)
      ++ take 1 (format_plan (runtime := runtime 1) None (u "proj")
                   style_only).
Proof.
  refine (proj1 (format_stops_at_first_failure (runtime := runtime 1)
                   (sdk "6.0.100") (u "proj") 0%nat style_only None store
                   v6_0_100 _ _ _ _)).
  - vm_compute; reflexivity.
  - split; [vm_compute; discriminate|vm_compute; reflexivity].
  - vm_compute; reflexivity.
  - intros t. discriminate.
Defined.

Lemma format_twice_witness :
  let first := format (runtime := runtime 0) (sdk "6.0.100") (u "proj")
                 (Some 0%nat) None store in
  dispatched (trace (snd (format (runtime := runtime 0) (sdk "6.0.100")
                            (u "proj") (Some 0%nat) None (snd first))))
  = dispatched (trace store)
      ++ format_plan (runtime := runtime 0) None (u "proj") style_only
      ++ [format_unified (runtime := runtime 0) None (u "proj")
            (Some (without_fix_flags style_only))].
Proof.
  refine (proj2 (proj2 (proj2 (format_twice (runtime := runtime 0)
                                 (sdk "6.0.100") (u "proj") 0%nat style_only
                                 None store v6_0_100 _ _ _ _)))).
  - vm_compute; reflexivity.
  - split; [vm_compute; discriminate|vm_compute; reflexivity].
  - vm_compute; reflexivity.
  - intros t. reflexivity.
Defined.


Lemma listing_without_search_term_witness :
  listInstalledTemplates_params v7_0_100
    (Some {| search := Some []; language := Some (u "F#") |})
  = [u "new"; u "list"; u "--language"; u "F#"].
Proof.
  refine (proj1 (listing_without_search_term (runtime := runtime 0)
                   (sdk "7.0.100") v7_0_100
                   (Some {| search := Some []; language := Some (u "F#") |})
                   (initial ∅) _ _)).
  - vm_compute; reflexivity.
  - reflexivity.
Defined.


Lemma publish_dispatches_quoted_project_witness :
  dispatched (trace (snd (publish (runtime := runtime 0) (sdk "6.0.100")
                            (u "$HOME/app") None (Some (u "Prod")) None
                            (initial ∅))))
  = [[u "publish"; [dquote] ++ u "/home/dev/app" ++ [dquote];
      u "-p:PublishProfile=Prod"]].
Proof.
  refine (publish_dispatches_quoted_project (runtime := runtime 0)
            (sdk "6.0.100") (u "$HOME/app") None (Some (u "Prod")) None []
            (initial ∅) _).
  reflexivity.
Defined.

Lemma failures_propagate_witness :
  exists e,
    call_outcome (runtime := runtime 1) (sdk "6.0.100")
      (CallAddProjectToSolution (u "app.sln") (u "proj")) (initial ∅)
    = Thrown e.
Proof.
  refine (failures_propagate (runtime := runtime 1) (sdk "6.0.100")
            (CallAddProjectToSolution (u "app.sln") (u "proj")) (initial ∅)
            _ _).
  - intros t. discriminate.
  - reflexivity.
Defined.

Lemma no_error_without_failure_witness :
  call_outcome (runtime := runtime 0) (sdk "6.0.100")
    (CallBuild (u "proj") None (Some (u " "))) (initial ∅) = Returned tt
  \/ exists cause,
       call_outcome (runtime := runtime 0) (sdk "6.0.100")
         (CallBuild (u "proj") None (Some (u " "))) (initial ∅)
       = Thrown (TypeError cause)
       /\ trace (state_after (runtime := runtime 0) (sdk "6.0.100")
                   (CallBuild (u "proj") None (Some (u " "))) (initial ∅))
          = trace (initial ∅).
Proof.
  refine (no_error_without_failure (runtime := runtime 0) (sdk "6.0.100")
            (CallBuild (u "proj") None (Some (u " "))) (initial ∅) _).
  intros t. reflexivity.
Defined.

End RunsMore.
